(** * A bytecode interpreter for JPAMB: shallow embedding of
      [solutions/interpreter.py] and the properties of its specification.

    The interpreter executes one method of a stack machine: [step] decodes
    the instruction under the program counter of the top frame and applies
    it, the driver iterates [step] at most 1000 times.

    Python objects that the source mutates in place (the operand stack, the
    frame, the call stack, the method cache) are threaded explicitly: a
    function returns the object as the call leaves it. *)

From Stdlib Require Import ZArith String Ascii List DecimalString Lia.
From stdpp Require Import base option gmap strings list relations.

Open Scope string_scope.
Open Scope Z_scope.

(** ** Python exceptions

    Every exception that escapes [step] ends the process with a traceback:
    these are the internal errors of the interpreter, as opposed to the
    outcomes it prints. *)

Inductive Exn : Set :=
  | IndexError
  | KeyError
  | TypeError
  | RuntimeError
  | AssertionFailed       (* a failing Python [assert] *)
  | NotImplementedError
  | SuiteError.           (* raised by [suite.method_opcodes] *)

Inductive Raises (A : Type) : Type :=
  | Returns (a : A)
  | Raised (e : Exn).
Arguments Returns {A} a.
Arguments Raised {A} e.

(** Sequencing: an exception raised by [m] propagates. *)
Definition bind {A B : Type} (m : Raises A) (f : A → Raises B) : Raises B :=
  match m with
  | Returns a => f a
  | Raised e => Raised e
  end.

Notation "'do' x <- m ; k" := (bind m (λ x, k))
  (at level 10, x name, m at level 100, k at level 200).

(** ** Python values and the operators the interpreter applies to them *)

Module Py.

(** The payload of a [jvm.Value]: [None], an [int], a [bool] or a [str]
    (a [char] payload is a [str] of length one).  Text is modelled over
    8-bit characters. *)
Inductive Payload : Set :=
  | PyNone
  | PyInt (n : Z)
  | PyBool (b : bool)
  | PyStr (s : string).

#[global] Instance Payload_eq_dec : EqDecision Payload.
Proof. solve_decision. Defined.

(** [len(s)] *)
Definition len (s : string) : Z := Z.of_nat (String.length s).

(** [str(x)] *)
Definition str (x : Payload) : string :=
  match x with
  | PyNone => "None"
  | PyInt n => NilZero.string_of_int (Z.to_int n)
  | PyBool true => "True"
  | PyBool false => "False"
  | PyStr s => s
  end.

(** [isinstance(x, str)] *)
Definition is_str (x : Payload) : bool :=
  match x with PyStr _ => true | _ => false end.

(** [x is None] *)
Definition is_none (x : Payload) : bool :=
  match x with PyNone => true | _ => false end.

(** Truth value of [x] in a conditional expression. *)
Definition truthy (x : Payload) : bool :=
  match x with
  | PyNone => false
  | PyInt n => negb (n =? 0)
  | PyBool b => b
  | PyStr s => negb (String.eqb s "")
  end.

(** The number an [int] or [bool] stands for ([bool] is a subclass of
    [int]). *)
Definition as_num (x : Payload) : option Z :=
  match x with
  | PyInt n => Some n
  | PyBool b => Some (if b then 1 else 0)
  | _ => None
  end.

(** [x == y]: never raises; values of unrelated types are unequal. *)
Definition eq (x y : Payload) : bool :=
  match as_num x, as_num y with
  | Some a, Some b => a =? b
  | _, _ =>
    match x, y with
    | PyNone, PyNone => true
    | PyStr s, PyStr t => String.eqb s t
    | _, _ => false
    end
  end.

(** The ordering operators: numbers with numbers, text with text
    (lexicographic on code points), [TypeError] otherwise. *)
Definition order (num : Z → Z → bool) (txt : string → string → bool)
    (x y : Payload) : Raises bool :=
  match as_num x, as_num y with
  | Some a, Some b => Returns (num a b)
  | _, _ =>
    match x, y with
    | PyStr s, PyStr t => Returns (txt s t)
    | _, _ => Raised TypeError
    end
  end.

Definition lt := order Z.ltb String.ltb.
Definition le := order Z.leb String.leb.
Definition gt := order Z.gtb (λ s t, String.ltb t s).
Definition ge := order Z.geb (λ s t, String.leb t s).

(** [x + y], [x - y], [x * y], [x // y], [x % y] on numbers.  A
    [jvm.Value] of type [Int] carries an [int]; for any other operand the
    model raises [TypeError] (what Python does for [None], and for text
    under [-] and [//]).  Text under [+], [*] and [%] (concatenation,
    repetition, formatting), which only an Int-typed value carrying text
    could reach, is outside the model. *)
Definition arith (f : Z → Z → Z) (x y : Payload) : Raises Z :=
  match as_num x, as_num y with
  | Some a, Some b => Returns (f a b)
  | _, _ => Raised TypeError
  end.

Definition add := arith Z.add.
Definition sub := arith Z.sub.
Definition mul := arith Z.mul.
(** [//] rounds toward minus infinity and [%] takes the sign of the
    divisor, as [Z.div] and [Z.modulo] do. *)
Definition floordiv := arith Z.div.
Definition mod_ := arith Z.modulo.

(** [ord(c)]: [c] must be text of length one. *)
Definition ord (s : string) : Raises Z :=
  match s with
  | String c EmptyString => Returns (Z.of_N (N_of_ascii c))
  | _ => Raised TypeError
  end.

(** Position designated by the index [i] in a sequence of length [n]:
    a negative index counts from the end. *)
Definition index_pos (n i : Z) : option nat :=
  if (0 <=? i) && (i <? n) then Some (Z.to_nat i)
  else if (- n <=? i) && (i <? 0) then Some (Z.to_nat (n + i))
  else None.

(** [l[i]] on a list. *)
Definition list_getitem {A} (l : list A) (i : Z) : Raises A :=
  match index_pos (Z.of_nat (List.length l)) i with
  | Some k =>
    match nth_error l k with
    | Some x => Returns x
    | None => Raised IndexError
    end
  | None => Raised IndexError
  end.

(** [s[i]] on text: a text of length one. *)
Definition str_getitem (s : string) (i : Z) : Raises string :=
  match index_pos (len s) i with
  | Some k =>
    match String.get k s with
    | Some c => Returns (String c EmptyString)
    | None => Raised IndexError
    end
  | None => Raised IndexError
  end.

(** Bound of a slice: negative bounds count from the end, and every bound
    is clipped to [0 .. n]. *)
Definition slice_bound (n i : Z) : Z :=
  if i <? 0 then Z.max (i + n) 0 else Z.min i n.

(** [s[b:e]] *)
Definition slice (s : string) (b e : Z) : string :=
  let b' := slice_bound (len s) b in
  let e' := slice_bound (len s) e in
  if b' <? e' then String.substring (Z.to_nat b') (Z.to_nat (e' - b')) s
  else "".

(** [s[b:]] *)
Definition slice_from (s : string) (b : Z) : string :=
  slice s b (len s).

(** [s.index(pat)], searching from position [k]; [None] stands for
    [ValueError]. *)
Fixpoint index_from (k : nat) (pat s : string) : option nat :=
  if String.prefix pat s then Some k
  else
    match s with
    | EmptyString => None
    | String _ s' => index_from (S k) pat s'
    end.

Definition index (s pat : string) : option nat := index_from 0 pat s.

(** [pat in s] *)
Definition contains (pat s : string) : bool :=
  match index s pat with Some _ => true | None => false end.

(** [s.endswith(suffix)] *)
Definition endswith (s suffix : string) : bool :=
  let n := String.length s in
  let k := String.length suffix in
  (k <=? n)%nat && String.eqb (String.substring (n - k) k s) suffix.

(** [a or b] on conditions that may raise: [b] is not evaluated when [a]
    holds. *)
Definition or_ (a b : Raises bool) : Raises bool :=
  do x <- a; if x then Returns true else b.

(** [s[b:e]] and [s[b:]] with the bounds taken from payloads. *)
Definition slice_of (s : string) (b e : Payload) : Raises string :=
  match as_num b, as_num e with
  | Some b', Some e' => Returns (slice s b' e')
  | _, _ => Raised TypeError
  end.

Definition slice_from_of (s : string) (b : Payload) : Raises string :=
  match as_num b with
  | Some b' => Returns (slice_from s b')
  | None => Raised TypeError
  end.

(** [s[i]] with the index taken from a payload. *)
Definition str_getitem_of (s : string) (i : Payload) : Raises string :=
  match as_num i with
  | Some i' => str_getitem s i'
  | None => Raised TypeError
  end.

End Py.

Export Py (Payload, PyNone, PyInt, PyBool, PyStr).

(** ** The [jvm] vocabulary of the jpamb library, as the interpreter uses it *)

Module jvm.

(** [jvm.Type]: the declared type of a value. *)
Inductive Ty : Set :=
  | Boolean
  | Int
  | Byte
  | Char
  | Short
  | Long
  | Float
  | Double
  | Reference
  | Object (name : string)
  | Array (contains : Ty).

#[global] Instance Ty_eq_dec : EqDecision Ty.
Proof. solve_decision. Defined.

(** [jvm.Value]: a declared type and a payload. *)
Record Value : Set := mkValue { type : Ty; value : Payload }.

#[global] Instance Value_eq_dec : EqDecision Value.
Proof. solve_decision. Defined.

(** The constructors [Value.int], [Value.boolean] and [Value.char]. *)
Definition Value_int (n : Z) : Value := mkValue Int (PyInt n).
Definition Value_boolean (b : bool) : Value := mkValue Boolean (PyBool b).
Definition Value_char (c : string) : Value := mkValue Char (PyStr c).

(** [isinstance(t, jvm.Int)] and its siblings. *)
Definition is_Int (t : Ty) : bool := match t with Int => true | _ => false end.
Definition is_Boolean (t : Ty) : bool :=
  match t with Boolean => true | _ => false end.
Definition is_Char (t : Ty) : bool := match t with Char => true | _ => false end.
Definition is_Reference_or_Object (t : Ty) : bool :=
  match t with Reference | Object _ => true | _ => false end.

Record MethodID : Set :=
  { name : string; params : list Ty; return_type : option Ty }.

(** A class name stands for its printed form [str(classname)]. *)
Record AbsMethodID : Set := { classname : string; methodid : MethodID }.

Record FieldID : Set := { fname : string; ftype : Ty }.
Record AbsFieldID : Set := { fclassname : string; extension : FieldID }.

#[global] Instance MethodID_eq_dec : EqDecision MethodID.
Proof. solve_decision. Defined.
#[global] Instance AbsMethodID_eq_dec : EqDecision AbsMethodID.
Proof. solve_decision. Defined.

(** [jvm.BinaryOpr]: the operators of [Binary]. *)
Inductive BinaryOpr : Set := Add | Sub | Mul | Div | Rem.

(** [jvm.Opcode]: the decoded instructions.  [Unhandled] stands for every
    opcode of the library that [step] has no case for (array access, casts,
    increments, ...). *)
Inductive Opcode : Set :=
  | Push (v : Value)
  | Load (t : Ty) (index : Z)
  | Store (t : Ty) (index : Z)
  | Binary (t : Ty) (operant : BinaryOpr)
  | Ifz (condition : string) (target : Z)
  | If (condition : string) (target : Z)
  | Goto (target : Z)
  | New (cn : string)
  | Dup (words : Z)
  | Get (static : bool) (field : AbsFieldID)
  | Throw
  | InvokeVirtual (method : AbsMethodID)
  | InvokeStatic (method : AbsMethodID)
  | InvokeSpecial (method : AbsMethodID)
  | Return (t : option Ty)
  | Unhandled (mnemonic : string).

End jvm.

Import jvm (Value, mkValue, Opcode, AbsMethodID).

(** ** Program counter and code store *)

Record PC : Set := mkPC { method : AbsMethodID; offset : Z }.

(** [PC.__iadd__] *)
Definition PC_iadd (pc : PC) (delta : Z) : PC :=
  {| method := method pc; offset := offset pc + delta |}.

(** The code store: the decoder of the suite and the per-method cache,
    a dictionary from method identifiers to instruction lists. *)
Record Bytecode : Type := mkBytecode
  { suite : AbsMethodID → option (list Opcode);
    methods : list (AbsMethodID * list Opcode) }.

(** [d[k]] on the cache; [None] stands for [KeyError]. *)
Fixpoint dict_get (d : list (AbsMethodID * list Opcode)) (k : AbsMethodID)
    : option (list Opcode) :=
  match d with
  | [] => None
  | (k', v) :: d' => if decide (k' = k) then Some v else dict_get d' k
  end.

(** [d[k] = v], used only after [d[k]] raised [KeyError]. *)
Definition dict_set (d : list (AbsMethodID * list Opcode)) (k : AbsMethodID)
    (v : list Opcode) : list (AbsMethodID * list Opcode) :=
  (k, v) :: d.

(** [Bytecode.__getitem__]: the cache after the call and the instruction
    or the exception. *)
Definition getitem (bc : Bytecode) (pc : PC) : Bytecode * Raises Opcode :=
  match dict_get (methods bc) (method pc) with
  | Some opcodes => (bc, Py.list_getitem opcodes (offset pc))
  | None =>
    match suite bc (method pc) with
    | None => (bc, Raised SuiteError)
    | Some opcodes =>
      (mkBytecode (suite bc) (dict_set (methods bc) (method pc) opcodes),
       Py.list_getitem opcodes (offset pc))
    end
  end.

(** ** Frames and states

    A [Stack] is a list whose head is the top ([items[-1]]). *)

Record Frame : Type := mkFrame
  { locals : gmap Z Value;
    stack : list Value;
    pc : PC }.

Definition Frame_from_method (m : AbsMethodID) : Frame :=
  {| locals := ∅; stack := []; pc := mkPC m 0 |}.

Record State : Type := mkState
  { heap : gmap Z Value;
    frames : list Frame }.

(** [frame.stack.push(v)] *)
Definition push (v : Value) (frame : Frame) : Frame :=
  {| locals := locals frame; stack := v :: stack frame; pc := pc frame |}.

(** [frame.stack.pop()]: the popped value and the frame left; [None]
    stands for the [IndexError] of popping an empty list. *)
Definition pop (frame : Frame) : option (Value * Frame) :=
  match stack frame with
  | [] => None
  | v :: items =>
    Some (v, {| locals := locals frame; stack := items; pc := pc frame |})
  end.

(** [frame.pc += 1] *)
Definition advance (frame : Frame) : Frame :=
  {| locals := locals frame; stack := stack frame;
     pc := PC_iadd (pc frame) 1 |}.

(** [frame.pc = PC(frame.pc.method, target)] *)
Definition jump (target : Z) (frame : Frame) : Frame :=
  {| locals := locals frame; stack := stack frame;
     pc := mkPC (method (pc frame)) target |}.

(** [frame.locals[i] = v] *)
Definition set_local (i : Z) (v : Value) (frame : Frame) : Frame :=
  {| locals := <[i := v]> (locals frame); stack := stack frame;
     pc := pc frame |}.

(** The state once the frame on top of [state.frames] has been mutated
    into [frame]. *)
Definition mutate (state : State) (frame : Frame) : State :=
  {| heap := heap state; frames := frame :: tail (frames state) |}.

(** ** Built-in method emulation *)

(** What the emulation hands back: a value, an outcome (a Python [str])
    or [None]. *)
Inductive Handled : Type :=
  | HValue (v : Value)
  | HOutcome (o : string)
  | HNone.

(** The text a receiver payload is read as (lines 426-432): [None] when
    the payload is [None], the payload itself when it is text, its printed
    form otherwise. *)
Definition receiver_text (string_value : Payload) : option string :=
  match string_value with
  | PyStr s => Some s
  | _ =>
    if Py.is_none string_value then None
    else Some (Py.str string_value)
  end.

(** The [match method_name] of [handle_string_method], on the text of the
    receiver.  A case whose guard on [args] fails falls out of the [match]
    and the function returns [None]. *)
Definition string_method (method_name : string) (string_value : string)
    (args : list Value) : Raises Handled :=
  if String.eqb method_name "length" then
    match args with
    | [] => Returns (HValue (jvm.Value_int (Py.len string_value)))
    | _ => Returns HNone
    end
  else if String.eqb method_name "charAt" then
    match args with
    | [a0] =>
      if jvm.is_Int (jvm.type a0) then
        let index := jvm.value a0 in
        do oob <- Py.or_ (Py.lt index (PyInt 0))
                     (Py.ge index (PyInt (Py.len string_value)));
        if oob then Returns (HOutcome "out of bounds")
        else do c <- Py.str_getitem_of string_value index;
             Returns (HValue (jvm.Value_char c))
      else Returns HNone
    | _ => Returns HNone
    end
  else if String.eqb method_name "equals" then
    match args with
    | [a0] =>
      let other := jvm.value a0 in
      if Py.is_none other then Returns (HValue (jvm.Value_boolean false))
      else Returns (HValue (jvm.Value_boolean
                              (String.eqb string_value (Py.str other))))
    | _ => Returns HNone
    end
  else if String.eqb method_name "isEmpty" then
    match args with
    | [] => Returns (HValue (jvm.Value_boolean (Py.len string_value =? 0)))
    | _ => Returns HNone
    end
  else if String.eqb method_name "substring" then
    match args with
    | [a0] =>
      if jvm.is_Int (jvm.type a0) then
        let begin := jvm.value a0 in
        do oob <- Py.or_ (Py.lt begin (PyInt 0))
                     (Py.gt begin (PyInt (Py.len string_value)));
        if oob then Returns (HOutcome "out of bounds")
        else do result_str <- Py.slice_from_of string_value begin;
             Returns (HValue (mkValue jvm.Reference (PyStr result_str)))
      else Returns HNone
    | [a0; a1] =>
      if jvm.is_Int (jvm.type a0) && jvm.is_Int (jvm.type a1) then
        let begin := jvm.value a0 in
        let end_ := jvm.value a1 in
        do oob <- Py.or_ (Py.lt begin (PyInt 0))
                (Py.or_ (Py.gt end_ (PyInt (Py.len string_value)))
                        (Py.gt begin end_));
        if oob then Returns (HOutcome "out of bounds")
        else do result_str <- Py.slice_of string_value begin end_;
             Returns (HValue (mkValue jvm.Reference (PyStr result_str)))
      else Returns HNone
    | _ => Returns HNone
    end
  else if String.eqb method_name "indexOf" then
    match args with
    | [a0] =>
      let other := jvm.value a0 in
      if Py.is_none other then Returns (HOutcome "null pointer")
      else
        match Py.index string_value (Py.str other) with
        | Some index => Returns (HValue (jvm.Value_int (Z.of_nat index)))
        | None => Returns (HValue (jvm.Value_int (-1)))
        end
    | _ => Returns HNone
    end
  else if String.eqb method_name "concat" then
    match args with
    | [a0] =>
      let other := jvm.value a0 in
      if Py.is_none other then Returns (HOutcome "null pointer")
      else Returns (HValue (mkValue jvm.Reference
                      (PyStr (String.append string_value (Py.str other)))))
    | _ => Returns HNone
    end
  else Returns HNone.

Definition handle_string_method (method_name : string)
    (obj_ref : option Value) (args : list Value)
    (return_type : option jvm.Ty) : Raises Handled :=
  match obj_ref with
  | None => Returns (HOutcome "null pointer")
  | Some obj_ref =>
    match receiver_text (jvm.value obj_ref) with
    | None => Returns (HOutcome "null pointer")
    | Some string_value => string_method method_name string_value args
    end
  end.

Definition handle_method_invocation (m : AbsMethodID)
    (obj_ref : option Value) (args : list Value) : Raises Handled :=
  let class_name_str := jvm.classname m in
  let method_name := jvm.name (jvm.methodid m) in
  if Py.contains "AssertionError" class_name_str
     && String.eqb method_name "<init>" then Returns HNone
  else if Py.contains "String" class_name_str
          || Py.endswith class_name_str "String" then
    handle_string_method method_name obj_ref args
      (jvm.return_type (jvm.methodid m))
  else Returns HNone.

(** ** The dispatch engine *)

(** What a call of [step] leaves: [Next s] when it returns the state
    object, now [s]; [Outcome o s] when it returns the text [o], the state
    object being left as [s]; [Abort e] when the exception [e] escapes. *)
Inductive StepResult : Type :=
  | Next (s : State)
  | Outcome (o : string) (s : State)
  | Abort (e : Exn).

(** The integer a value is compared as by [If] ([get_comparable_value]);
    [Ifz] computes its [int_val] by the same three cases. *)
Definition get_comparable_value (val : Value) : Raises Payload :=
  if jvm.is_Boolean (jvm.type val) then
    Returns (PyInt (if Py.truthy (jvm.value val) then 1 else 0))
  else if jvm.is_Char (jvm.type val) then
    match jvm.value val with
    | PyStr s => do n <- Py.ord s; Returns (PyInt n)
    | p => Returns p
    end
  else Returns (jvm.value val).

(** The [match cond] of [Ifz] and [If]. *)
Definition should_jump (cond : string) (v1 v2 : Payload) : Raises bool :=
  if String.eqb cond "eq" then Returns (Py.eq v1 v2)
  else if String.eqb cond "ne" then Returns (negb (Py.eq v1 v2))
  else if String.eqb cond "lt" then Py.lt v1 v2
  else if String.eqb cond "le" then Py.le v1 v2
  else if String.eqb cond "gt" then Py.gt v1 v2
  else if String.eqb cond "ge" then Py.ge v1 v2
  else Raised NotImplementedError.

(** [frame.pc = PC(frame.pc.method, target)] when the condition holds,
    [frame.pc += 1] otherwise. *)
Definition branch (taken : bool) (target : Z) (frame : Frame) : Frame :=
  if taken then jump target frame else advance frame.

(** The loop [for _ in range(param_count): args.insert(0, frame.stack.pop())]:
    the arguments in the order they were pushed and the frame left. *)
Fixpoint pop_args (param_count : nat) (args : list Value) (frame : Frame)
    : option (list Value * Frame) :=
  match param_count with
  | O => Some (args, frame)
  | S n =>
    match pop frame with
    | None => None
    | Some (v, frame') => pop_args n (v :: args) frame'
    end
  end.

(** The integer arithmetic of [Binary]: the outcome text when the divisor
    of [Div] or [Rem] is zero, the number to push otherwise. *)
Definition binary (op : jvm.BinaryOpr) (v1 v2 : Value)
    : Raises (string + Z) :=
  match op with
  | jvm.Div =>
    if Py.eq (jvm.value v2) (PyInt 0) then Returns (inl "divide by zero")
    else do r <- Py.floordiv (jvm.value v1) (jvm.value v2); Returns (inr r)
  | jvm.Add =>
    do r <- Py.add (jvm.value v1) (jvm.value v2); Returns (inr r)
  | jvm.Sub =>
    do r <- Py.sub (jvm.value v1) (jvm.value v2); Returns (inr r)
  | jvm.Mul =>
    do r <- Py.mul (jvm.value v1) (jvm.value v2); Returns (inr r)
  | jvm.Rem =>
    if Py.eq (jvm.value v2) (PyInt 0) then Returns (inl "divide by zero")
    else do r <- Py.mod_ (jvm.value v1) (jvm.value v2); Returns (inr r)
  end.

(** What an invocation does with the result of the emulation: an outcome
    is returned, a value is pushed and the program counter advanced,
    [None] is not implemented. *)
Definition invoke_result (state : State) (frame : Frame)
    (result : Raises Handled) : StepResult :=
  match result with
  | Raised e => Abort e
  | Returns (HOutcome o) => Outcome o (mutate state frame)
  | Returns (HValue v) => Next (mutate state (advance (push v frame)))
  | Returns HNone => Abort NotImplementedError
  end.

(** The [match opr] of [step]; [frame] is the frame on top of
    [state.frames]. *)
Definition exec (opr : Opcode) (state : State) (frame : Frame) : StepResult :=
  match opr with
  | jvm.Push v => Next (mutate state (advance (push v frame)))

  | jvm.Load t i =>
    match locals frame !! i with
    | Some v => Next (mutate state (advance (push v frame)))
    | None =>
      if jvm.is_Int t then
        Next (mutate state (advance (push (jvm.Value_int 0) frame)))
      else if jvm.is_Boolean t then
        Next (mutate state (advance (push (jvm.Value_boolean false) frame)))
      else if jvm.is_Reference_or_Object t then
        Next (mutate state (advance (push (mkValue t PyNone) frame)))
      else Abort NotImplementedError
    end

  | jvm.Store t i =>
    match pop frame with
    | None => Abort IndexError
    | Some (value, frame) =>
      Next (mutate state (advance (set_local i value frame)))
    end

  | jvm.Binary jvm.Int op =>
    match pop frame with
    | None => Abort IndexError
    | Some (v2, frame) =>
      match pop frame with
      | None => Abort IndexError
      | Some (v1, frame) =>
        if negb (jvm.is_Int (jvm.type v1)) then Abort AssertionFailed
        else if negb (jvm.is_Int (jvm.type v2)) then Abort AssertionFailed
        else
          match binary op v1 v2 with
          | Raised e => Abort e
          | Returns (inl o) => Outcome o (mutate state frame)
          | Returns (inr r) =>
            Next (mutate state (advance (push (jvm.Value_int r) frame)))
          end
      end
    end

  | jvm.Ifz cond target =>
    match pop frame with
    | None => Abort IndexError
    | Some (value, frame) =>
      match (do int_val <- get_comparable_value value;
             should_jump cond int_val (PyInt 0)) with
      | Raised e => Abort e
      | Returns taken => Next (mutate state (branch taken target frame))
      end
    end

  | jvm.If cond target =>
    match pop frame with
    | None => Abort IndexError
    | Some (value2, frame) =>
      match pop frame with
      | None => Abort IndexError
      | Some (value1, frame) =>
        match (do v1 <- get_comparable_value value1;
               do v2 <- get_comparable_value value2;
               should_jump cond v1 v2) with
        | Raised e => Abort e
        | Returns taken => Next (mutate state (branch taken target frame))
        end
      end
    end

  | jvm.Goto target => Next (mutate state (jump target frame))

  | jvm.New cn =>
    let class_name_str := cn in
    if Py.contains "AssertionError" class_name_str then
      Next (mutate state (advance
        (push (mkValue jvm.Reference (PyStr "AssertionError")) frame)))
    else
      Next (mutate state (advance
        (push (mkValue jvm.Reference
                 (PyStr (String.append "Object:" class_name_str))) frame)))

  | jvm.Dup w =>
    if w =? 1 then
      match stack frame with
      | [] => Abort RuntimeError
      | top_value :: _ => Next (mutate state (advance (push top_value frame)))
      end
    else Abort NotImplementedError

  | jvm.Get true f =>
    if String.eqb (jvm.fname (jvm.extension f)) "$assertionsDisabled" then
      Next (mutate state (advance (push (jvm.Value_boolean false) frame)))
    else Abort NotImplementedError

  | jvm.Get false f =>
    match pop frame with
    | None => Abort IndexError
    | Some (obj_ref, frame) =>
      if Py.is_none (jvm.value obj_ref) then
        Outcome "null pointer" (mutate state frame)
      else Abort NotImplementedError
    end

  | jvm.Throw =>
    match pop frame with
    | None => Abort IndexError
    | Some (exception_obj, frame) =>
      if Py.is_none (jvm.value exception_obj) then
        Outcome "null pointer" (mutate state frame)
      else
        let exception_str := Py.str (jvm.value exception_obj) in
        if Py.eq (jvm.value exception_obj) (PyStr "AssertionError")
           || Py.contains "AssertionError" exception_str then
          Outcome "assertion error" (mutate state frame)
        else Outcome "assertion error" (mutate state frame)
    end

  | jvm.InvokeVirtual m =>
    match pop_args (List.length (jvm.params (jvm.methodid m))) [] frame with
    | None => Abort IndexError
    | Some (args, frame) =>
      match pop frame with
      | None => Abort IndexError
      | Some (obj_ref, frame) =>
        if Py.is_none (jvm.value obj_ref) then
          Outcome "null pointer" (mutate state frame)
        else
          invoke_result state frame
            (handle_method_invocation m (Some obj_ref) args)
      end
    end

  | jvm.InvokeStatic m =>
    match pop_args (List.length (jvm.params (jvm.methodid m))) [] frame with
    | None => Abort IndexError
    | Some (args, frame) =>
      invoke_result state frame (handle_method_invocation m None args)
    end

  | jvm.InvokeSpecial m =>
    match pop_args (List.length (jvm.params (jvm.methodid m))) [] frame with
    | None => Abort IndexError
    | Some (args, frame) =>
      match pop frame with
      | None => Abort IndexError
      | Some (obj_ref, frame) =>
        if Py.is_none (jvm.value obj_ref) then
          Outcome "null pointer" (mutate state frame)
        else if String.eqb (jvm.name (jvm.methodid m)) "<init>" then
          match handle_method_invocation m (Some obj_ref) args with
          | Raised e => Abort e
          | Returns (HOutcome o) => Outcome o (mutate state frame)
          | Returns _ => Next (mutate state (advance (push obj_ref frame)))
          end
        else
          invoke_result state frame
            (handle_method_invocation m (Some obj_ref) args)
      end
    end

  | jvm.Return None =>
    match tail (frames state) with
    | caller :: below =>
      Next {| heap := heap state; frames := advance caller :: below |}
    | [] => Outcome "ok" {| heap := heap state; frames := [] |}
    end

  | jvm.Return (Some _) =>
    match pop frame with
    | None => Abort IndexError
    | Some (v1, _) =>
      match tail (frames state) with
      | caller :: below =>
        Next {| heap := heap state;
                frames := advance (push v1 caller) :: below |}
      | [] => Outcome "ok" {| heap := heap state; frames := [] |}
      end
    end

  | _ => Abort NotImplementedError
  end.

(** [step]: the cache of the code store after the call, and what the call
    leaves.  [state.frames.peek()] raises [IndexError] on an empty call
    stack. *)
Definition step (bc : Bytecode) (state : State) : Bytecode * StepResult :=
  match frames state with
  | [] => (bc, Abort IndexError)
  | frame :: _ =>
    match getitem bc (pc frame) with
    | (bc', Raised e) => (bc', Abort e)
    | (bc', Returns opr) => (bc', exec opr state frame)
    end
  end.

(** ** The driver *)

(** What the process shows: the line it prints, or the exception it dies
    of. *)
Inductive Output : Set :=
  | Printed (line : string)
  | Crashed (e : Exn).

(** [for i, v in enumerate(input.values): frame.locals[i] = v] *)
Fixpoint seed_locals (i : Z) (values : list Value) (l : gmap Z Value)
    : gmap Z Value :=
  match values with
  | [] => l
  | v :: values' => seed_locals (i + 1) values' (<[i := v]> l)
  end.

Definition initial_frame (methodid : AbsMethodID) (input : list Value)
    : Frame :=
  let frame := Frame_from_method methodid in
  {| locals := seed_locals 0 input (locals frame);
     stack := stack frame; pc := pc frame |}.

Definition initial_state (methodid : AbsMethodID) (input : list Value)
    : State :=
  {| heap := ∅; frames := [initial_frame methodid input] |}.

Definition initial_bc (suite : AbsMethodID → option (list Opcode))
    : Bytecode :=
  mkBytecode suite [].

(** The loop [for x in range(n): ...] with its [else] branch. *)
Fixpoint run (n : nat) (bc : Bytecode) (state : State) : Output :=
  match n with
  | O => Printed "*"
  | S n' =>
    match step bc state with
    | (bc', Next state') => run n' bc' state'
    | (_, Outcome o _) => Printed o
    | (_, Abort e) => Crashed e
    end
  end.

(** The same loop, counting the calls of [step] it makes. *)
Fixpoint run_steps (n : nat) (bc : Bytecode) (state : State) : nat :=
  match n with
  | O => O
  | S n' =>
    match step bc state with
    | (bc', Next state') => S (run_steps n' bc' state')
    | (_, _) => 1%nat
    end
  end.

Definition step_bound : nat := 1000.

Definition main (suite : AbsMethodID → option (list Opcode))
    (methodid : AbsMethodID) (input : list Value) : Output :=
  run step_bound (initial_bc suite) (initial_state methodid input).


(** One transition of a run: [step] returned the state object. *)
Definition transition (c c' : Bytecode * State) : Prop :=
  step c.1 c.2 = (c'.1, Next c'.2).

(** The states a run goes through. *)
Definition reachable (suite : AbsMethodID → option (list Opcode))
    (methodid : AbsMethodID) (input : list Value) (c : Bytecode * State)
    : Prop :=
  rtc transition (initial_bc suite, initial_state methodid input) c.

(** ** Vocabulary of the properties *)

(** The frame on top of the call stack, the instruction under its program
    counter and the cache of the code store once it has been fetched. *)
Definition decode (bc : Bytecode) (state : State)
    : option (Frame * Opcode * Bytecode) :=
  match frames state with
  | [] => None
  | frame :: _ =>
    match getitem bc (pc frame) with
    | (bc', Returns opr) => Some (frame, opr, bc')
    | (_, Raised _) => None
    end
  end.

(** The instruction list of a method, from the cache or from the suite. *)
Definition code_of (bc : Bytecode) (m : AbsMethodID)
    : option (list Opcode) :=
  match dict_get (methods bc) m with
  | Some opcodes => Some opcodes
  | None => suite bc m
  end.

(** The code store once the body of [methodid] is in its cache and no
    other. *)
Definition cached_bc (suite : AbsMethodID → option (list Opcode))
    (methodid : AbsMethodID) (body : list Opcode) : Bytecode :=
  mkBytecode suite [(methodid, body)].

(** The frame with another operand stack. *)
Definition with_stack (items : list Value) (frame : Frame) : Frame :=
  {| locals := locals frame; stack := items; pc := pc frame |}.

(** The text made of the characters of [s] at the positions [b], ...,
    [e - 1]. *)
Definition expected_slice (s : string) (b e : Z) : string :=
  String.substring (Z.to_nat b) (Z.to_nat (e - b)) s.

(** The state a call of [step] leaves, if no exception escapes. *)
Definition state_after (r : StepResult) : option State :=
  match r with
  | Next s => Some s
  | Outcome _ s => Some s
  | Abort _ => None
  end.

(** The lines the process can print. *)
Definition outcome_lines : list string :=
  ["ok"; "divide by zero"; "assertion error"; "out of bounds";
   "null pointer"; "*"].

(** The texts a call of [step] can return. *)
Definition step_outcomes : list string :=
  ["ok"; "divide by zero"; "assertion error"; "out of bounds";
   "null pointer"].

(** The relation on integers that a condition of [Ifz] and [If] names. *)
Definition int_relation (cond : string) : option (Z → Z → bool) :=
  if String.eqb cond "eq" then Some Z.eqb
  else if String.eqb cond "ne" then Some (λ a b, negb (a =? b))
  else if String.eqb cond "lt" then Some Z.ltb
  else if String.eqb cond "le" then Some Z.leb
  else if String.eqb cond "gt" then Some Z.gtb
  else if String.eqb cond "ge" then Some Z.geb
  else None.

(** The integer that [Ifz] and [If] compare an Integer, Boolean or
    Character value as: itself, 0 or 1, the code point. *)
Definition compared_as (v : Value) (n : Z) : Prop :=
  v = jvm.Value_int n
  ∨ (∃ p : bool, v = jvm.Value_boolean p ∧ n = if p then 1 else 0)
  ∨ (∃ c : ascii, v = jvm.Value_char (String c EmptyString)
                  ∧ n = Z.of_N (N_of_ascii c)).

(** The reference that [New] pushes for the class name [cn]. *)
Definition allocated (cn : string) : Value :=
  mkValue jvm.Reference
    (PyStr (if Py.contains "AssertionError" cn then "AssertionError"
            else String.append "Object:" cn)).

(** The constructor without parameters of the class [cn]. *)
Definition constructor (cn : string) : AbsMethodID :=
  {| jvm.classname := cn;
     jvm.methodid := {| jvm.name := "<init>"; jvm.params := [];
                        jvm.return_type := None |} |}.

(** The method [String.charAt(int)]. *)
Definition String_charAt : AbsMethodID :=
  {| jvm.classname := "java/lang/String";
     jvm.methodid := {| jvm.name := "charAt"; jvm.params := [jvm.Int];
                        jvm.return_type := Some jvm.Char |} |}.

(** The text [s] without its first [k] characters. *)
Fixpoint string_drop (k : nat) (s : string) : string :=
  match k, s with
  | O, _ => s
  | S k', String _ s' => string_drop k' s'
  | S _, EmptyString => EmptyString
  end.

(** [pat] occurs in [s] at position [k]. *)
Definition occurs_at (pat s : string) (k : nat) : Prop :=
  (k <= String.length s)%nat ∧ String.prefix pat (string_drop k s) = true.

(** The frame the interpreter is executing. *)
Definition top_frame (state : State) : option Frame := head (frames state).

(** ** Sample runs *)

Module Samples.

Definition m0 : AbsMethodID :=
  {| jvm.classname := "jpamb/cases/Simple";
     jvm.methodid := {| jvm.name := "run"; jvm.params := [];
                        jvm.return_type := Some jvm.Int |} |}.

(** A suite with one method body, whatever the method asked for. *)
Definition only (body : list Opcode) : AbsMethodID → option (list Opcode) :=
  λ _, Some body.

Definition div_by_zero : list Opcode :=
  [jvm.Push (jvm.Value_int 4); jvm.Push (jvm.Value_int 0);
   jvm.Binary jvm.Int jvm.Div; jvm.Return (Some jvm.Int)].

Definition add_3_4 : list Opcode :=
  [jvm.Push (jvm.Value_int 3); jvm.Push (jvm.Value_int 4);
   jvm.Binary jvm.Int jvm.Add; jvm.Return (Some jvm.Int)].

Definition String_length : AbsMethodID :=
  {| jvm.classname := "java/lang/String";
     jvm.methodid := {| jvm.name := "length"; jvm.params := [];
                        jvm.return_type := Some jvm.Int |} |}.

Definition length_of_arg : list Opcode :=
  [jvm.Load jvm.Reference 0; jvm.InvokeVirtual String_length;
   jvm.Return (Some jvm.Int)].

(** A state with one frame of [m0] at offset [k] with the given operand
    stack. *)
Definition at_offset (k : Z) (items : list Value) : State :=
  {| heap := ∅;
     frames := [ {| locals := ∅; stack := items; pc := mkPC m0 k |} ] |}.

End Samples.

Example run_div_by_zero :
  main (Samples.only Samples.div_by_zero) Samples.m0 []
  = Printed "divide by zero".
Proof. vm_compute. reflexivity. Qed.

Example run_add_3_4 :
  main (Samples.only Samples.add_3_4) Samples.m0 [] = Printed "ok".
Proof. vm_compute. reflexivity. Qed.

Example run_length_of_null :
  main (Samples.only Samples.length_of_arg) Samples.m0
       [mkValue jvm.Reference PyNone]
  = Printed "null pointer".
Proof. vm_compute. reflexivity. Qed.

Example run_length_of_text :
  main (Samples.only Samples.length_of_arg) Samples.m0
       [mkValue jvm.Reference (PyStr "abc")]
  = Printed "ok".
Proof. vm_compute. reflexivity. Qed.

Example slice_in_range : Py.slice "hello" 1 3 = "el".
Proof. reflexivity. Qed.

Example slice_negative : Py.slice "hello" (-3) (-1) = "ll".
Proof. reflexivity. Qed.

Example str_of_negative : Py.str (PyInt (-120)) = "-120".
Proof. reflexivity. Qed.

Example index_found : Py.index "hello" "ll" = Some 2%nat.
Proof. reflexivity. Qed.

Example index_missing : Py.index "hello" "lo!" = None.
Proof. reflexivity. Qed.

Example index_of_empty : Py.index "" "" = Some 0%nat.
Proof. reflexivity. Qed.

Example marker_in_class_name :
  Py.contains "AssertionError" "java/lang/AssertionError" = true.
Proof. reflexivity. Qed.

Example endswith_String :
  Py.endswith "java/lang/String" "String" = true
  ∧ Py.endswith "ring" "String" = false.
Proof. split; reflexivity. Qed.

Example list_getitem_last :
  Py.list_getitem [10; 20; 30] (-1) = Returns 30
  ∧ Py.list_getitem [10; 20; 30] 3 = Raised IndexError
  ∧ Py.list_getitem [10; 20; 30] (-4) = Raised IndexError.
Proof. repeat split; reflexivity. Qed.

Example charAt_out_of_bounds :
  handle_string_method "charAt"
    (Some (mkValue jvm.Reference (PyStr "abc"))) [jvm.Value_int 3] None
  = Returns (HOutcome "out of bounds").
Proof. reflexivity. Qed.

Example charAt_in_bounds :
  handle_string_method "charAt"
    (Some (mkValue jvm.Reference (PyStr "abc"))) [jvm.Value_int 2] None
  = Returns (HValue (jvm.Value_char "c")).
Proof. reflexivity. Qed.

Example floordiv_negative :
  Py.floordiv (PyInt (-7)) (PyInt 2) = Returns (-4)
  ∧ Py.mod_ (PyInt (-7)) (PyInt 2) = Returns 1
  ∧ Py.mod_ (PyInt 7) (PyInt (-2)) = Returns (-1).
Proof. repeat split; reflexivity. Qed.

(** ** Fetching and executing *)

Lemma step_decode bc state frame opr bc' :
  decode bc state = Some (frame, opr, bc') →
  step bc state = (bc', exec opr state frame).
Proof.
  unfold decode, step. destruct (frames state) as [|f rest]; [discriminate|].
  destruct (getitem bc (pc f)) as [bc1 [o|e]]; [|discriminate].
  intros H. injection H as -> -> ->. reflexivity.
Qed.

Lemma decode_top bc state frame opr bc' :
  decode bc state = Some (frame, opr, bc') →
  ∃ rest, frames state = frame :: rest.
Proof.
  unfold decode. destruct (frames state) as [|f rest]; [discriminate|].
  destruct (getitem bc (pc f)) as [bc1 [o|e]]; [|discriminate].
  intros H. injection H as -> _ _. eauto.
Qed.

Lemma pop_with_stack frame v items :
  stack frame = v :: items → pop frame = Some (v, with_stack items frame).
Proof. unfold pop, with_stack. intros ->. reflexivity. Qed.

(** ** Integer division and remainder *)

Lemma eq_int_zero b : Py.eq (PyInt b) (PyInt 0) = (b =? 0).
Proof. reflexivity. Qed.

(** With a divisor that is not zero, [Div] pushes the quotient rounded
    toward minus infinity and [Rem] the matching remainder. *)
Lemma binary_div_floor a b :
  b ≠ 0 →
  binary jvm.Div (jvm.Value_int a) (jvm.Value_int b) = Returns (inr (a / b)).
Proof.
  intros Hb. unfold binary. simpl. rewrite eq_int_zero.
  destruct (Z.eqb_spec b 0); [contradiction|]. reflexivity.
Qed.

Lemma binary_rem_floor a b :
  b ≠ 0 →
  binary jvm.Rem (jvm.Value_int a) (jvm.Value_int b)
  = Returns (inr (a mod b)).
Proof.
  intros Hb. unfold binary. simpl. rewrite eq_int_zero.
  destruct (Z.eqb_spec b 0); [contradiction|]. reflexivity.
Qed.

(** The quotient and the remainder that are pushed do satisfy
    [div(a,b)*b + rem(a,b) = a]. *)
Lemma binary_div_rem_identity a b :
  b ≠ 0 →
  ∃ q r,
    binary jvm.Div (jvm.Value_int a) (jvm.Value_int b) = Returns (inr q)
    ∧ binary jvm.Rem (jvm.Value_int a) (jvm.Value_int b) = Returns (inr r)
    ∧ q * b + r = a.
Proof.
  intros Hb. exists (a / b), (a mod b).
  rewrite binary_div_floor, binary_rem_floor by assumption.
  repeat split. pose proof (Z.div_mod a b Hb). lia.
Qed.

(** The quotient pushed is the truncated one exactly when the division is
    exact or the operands have the same sign. *)
Lemma floor_is_trunc_iff a b :
  b ≠ 0 → (a / b = a ÷ b ↔ (a mod b = 0 ∨ 0 <= a * b)).
Proof.
  intros Hb.
  pose proof (Z.div_mod a b Hb) as Hf.
  pose proof (Z.quot_rem' a b) as Ht.
  split.
  - intros E. rewrite E in Hf.
    assert (a mod b = Z.rem a b) as Hm by lia.
    pose proof (Z.rem_sign_mul a b Hb) as Hs.
    pose proof (Z.mod_pos_bound a b) as Hp.
    pose proof (Z.mod_neg_bound a b) as Hn.
    rewrite <- Hm in Hs.
    destruct (Z.eq_dec (a mod b) 0) as [|Hnz]; [left; assumption|right].
    destruct (Z_lt_le_dec b 0); nia.
  - intros [Hz|Hs].
    + apply Z.mod_divide in Hz; [|assumption]. destruct Hz as [k ->].
      rewrite Z.div_mul, Z.quot_mul by assumption. reflexivity.
    + destruct (Z_lt_le_dec 0 b) as [Hb'|Hb'].
      * symmetry. apply Z.quot_div_nonneg; nia.
      * rewrite <- (Z.quot_opp_opp a b) by assumption.
        rewrite <- (Z.div_opp_opp a b) by assumption.
        symmetry. apply Z.quot_div_nonneg; nia.
Qed.

(** C1 (the code departs from the claim).  For non-zero [b] the claim asks
    [Div] to push the quotient truncated toward zero.  On the operands
    [a = -7], [b = 2] the step pushes [-4], the quotient rounded toward
    minus infinity, where truncation gives [-3]; the remainder pushed for
    the same operands is [1], so the identity [div*b + rem = a] holds for
    what is pushed. *)
Theorem step_div_rounds_toward_minus_infinity :
  let bc := initial_bc (Samples.only [jvm.Binary jvm.Int jvm.Div]) in
  let bc_rem := initial_bc (Samples.only [jvm.Binary jvm.Int jvm.Rem]) in
  let operands := [jvm.Value_int 2; jvm.Value_int (-7)] in
  (step bc (Samples.at_offset 0 operands)).2
    = Next (Samples.at_offset 1 [jvm.Value_int (-4)])
  ∧ (step bc_rem (Samples.at_offset 0 operands)).2
    = Next (Samples.at_offset 1 [jvm.Value_int 1])
  ∧ (-7) ÷ 2 = -3
  ∧ (-4) * 2 + 1 = -7.
Proof. vm_compute. repeat split; reflexivity. Qed.

(** ** Division by zero *)

Lemma binary_by_zero op a :
  op = jvm.Div ∨ op = jvm.Rem →
  binary op (jvm.Value_int a) (jvm.Value_int 0)
  = Returns (inl "divide by zero").
Proof. intros [-> | ->]; reflexivity. Qed.

(** C2.  When the next instruction is the integer [Div] or [Rem] and the
    right operand, on top of the operand stack, is the integer 0, the step
    returns the outcome "divide by zero" for every integer left operand
    [a]; the operand stack is left with the two operands popped and
    nothing pushed. *)
Theorem step_div_rem_by_zero bc state frame op bc' a below :
  decode bc state = Some (frame, jvm.Binary jvm.Int op, bc') →
  op = jvm.Div ∨ op = jvm.Rem →
  stack frame = jvm.Value_int 0 :: jvm.Value_int a :: below →
  step bc state
  = (bc', Outcome "divide by zero" (mutate state (with_stack below frame))).
Proof.
  intros Hdec Hop Hstack.
  rewrite (step_decode _ _ _ _ _ Hdec). f_equal.
  unfold exec.
  rewrite (pop_with_stack _ _ _ Hstack).
  rewrite (pop_with_stack (with_stack _ frame) (jvm.Value_int a) below)
    by reflexivity.
  cbn [jvm.type jvm.Value_int jvm.is_Int negb].
  change (mkValue jvm.Int (PyInt a)) with (jvm.Value_int a).
  change (mkValue jvm.Int (PyInt 0)) with (jvm.Value_int 0).
  rewrite (binary_by_zero op a Hop). reflexivity.
Qed.

Lemma step_div_rem_by_zero_witness :
  step (initial_bc (Samples.only [jvm.Binary jvm.Int jvm.Rem]))
       (Samples.at_offset 0 [jvm.Value_int 0; jvm.Value_int 5])
  = (mkBytecode (Samples.only [jvm.Binary jvm.Int jvm.Rem])
       [(Samples.m0, [jvm.Binary jvm.Int jvm.Rem])],
     Outcome "divide by zero"
       (mutate (Samples.at_offset 0 [jvm.Value_int 0; jvm.Value_int 5])
          (with_stack []
             {| locals := ∅;
                stack := [jvm.Value_int 0; jvm.Value_int 5];
                pc := mkPC Samples.m0 0 |}))).
Proof.
  apply (step_div_rem_by_zero _ _ _ jvm.Rem _ 5 []).
  - reflexivity.
  - right. reflexivity.
  - reflexivity.
Defined.

(** ** Two-argument substring *)

Lemma substring_zero_length n s : String.substring n 0 s = "".
Proof.
  revert s. induction n as [|n IH]; intros [|c s]; simpl; auto.
Qed.

Lemma substring_length n m s :
  (n + m <= String.length s)%nat →
  String.length (String.substring n m s) = m.
Proof.
  revert n m. induction s as [|c s IH]; intros n m H; simpl in H.
  - assert (n = 0%nat ∧ m = 0%nat) as [-> ->] by lia. reflexivity.
  - destruct n as [|n]; simpl.
    + destruct m as [|m]; simpl; [reflexivity|]. f_equal.
      apply (IH 0%nat m). lia.
    + apply IH. lia.
Qed.

(** [expected_slice] has [e - b] characters, those of [s] from position
    [b] on. *)
Lemma expected_slice_length s b e :
  0 <= b → b <= e → e <= Py.len s →
  Py.len (expected_slice s b e) = e - b.
Proof.
  unfold expected_slice, Py.len. intros Hb Hbe He.
  rewrite substring_length; lia.
Qed.

Lemma expected_slice_get s b e (i : nat) :
  0 <= b → Z.of_nat i < e - b →
  String.get i (expected_slice s b e) = String.get (i + Z.to_nat b) s.
Proof.
  unfold expected_slice. intros Hb Hi.
  apply substring_correct1. lia.
Qed.

(** Within the bounds Python's slice is the expected one. *)
Lemma slice_in_bounds s b e :
  0 <= b → b <= e → e <= Py.len s →
  Py.slice s b e = expected_slice s b e.
Proof.
  intros Hb Hbe He. unfold Py.slice, Py.slice_bound, expected_slice.
  destruct (Z.ltb_spec b 0); [lia|].
  destruct (Z.ltb_spec e 0); [lia|].
  rewrite !Z.min_l by lia.
  destruct (Z.ltb_spec b e); [reflexivity|].
  replace (e - b) with 0 by lia. simpl.
  symmetry. apply substring_zero_length.
Qed.

(** The emulation on a text receiver and two integer arguments. *)
Lemma substring_two_args_eval s t b e rt :
  handle_string_method "substring" (Some (mkValue t (PyStr s)))
    [jvm.Value_int b; jvm.Value_int e] rt
  = if (b <? 0) || (e >? Py.len s) || (b >? e)
    then Returns (HOutcome "out of bounds")
    else Returns (HValue (mkValue jvm.Reference (PyStr (Py.slice s b e)))).
Proof.
  unfold handle_string_method, receiver_text, string_method. simpl.
  unfold Py.or_, Py.lt, Py.gt, Py.order, bind. simpl.
  destruct (b <? 0); simpl; [reflexivity|].
  destruct (e >? Py.len s); simpl; [reflexivity|].
  destruct (b >? e); reflexivity.
Qed.

(** C3.  For every text receiver [s] and integers [b], [e], the
    two-argument substring emulation yields the outcome "out of bounds" if
    and only if [b < 0] or [e > length(s)] or [b > e]; otherwise it returns
    a text Reference whose payload is the slice of [s] from [b] (inclusive)
    to [e] (exclusive). *)
Theorem substring_two_args s t b e rt :
  let result :=
    handle_string_method "substring" (Some (mkValue t (PyStr s)))
      [jvm.Value_int b; jvm.Value_int e] rt in
  (result = Returns (HOutcome "out of bounds")
   ↔ (b < 0 ∨ e > Py.len s ∨ b > e))
  ∧ (¬ (b < 0 ∨ e > Py.len s ∨ b > e) →
     result
     = Returns (HValue (mkValue jvm.Reference
                          (PyStr (expected_slice s b e))))).
Proof.
  intros result. subst result. rewrite substring_two_args_eval.
  destruct (Z.ltb_spec b 0) as [Hb|Hb]; simpl.
  { split; [split; [lia|reflexivity]|lia]. }
  destruct (Z.gtb_spec e (Py.len s)) as [He|He]; simpl.
  { split; [split; [lia|reflexivity]|lia]. }
  destruct (Z.gtb_spec b e) as [Hbe|Hbe]; simpl.
  { split; [split; [lia|reflexivity]|lia]. }
  split.
  - split; [discriminate|lia].
  - intros _. rewrite slice_in_bounds by lia. reflexivity.
Qed.

Lemma substring_two_args_witness :
  handle_string_method "substring"
    (Some (mkValue jvm.Reference (PyStr "hello")))
    [jvm.Value_int 1; jvm.Value_int 3] None
  = Returns (HValue (mkValue jvm.Reference (PyStr "el"))).
Proof.
  apply (proj2 (substring_two_args "hello" jvm.Reference 1 3 None)).
  vm_compute. intros [H | [H | H]]; discriminate H.
Defined.

(** ** Throw *)

(** C4.  When the next instruction is [Throw], the step pops the exception
    reference and returns the outcome "null pointer" if its payload is
    null, and "assertion error" if it is not, whether the reference carries
    the assertion-error marker or anything else. *)
Theorem step_throw bc state frame bc' exception_obj below :
  decode bc state = Some (frame, jvm.Throw, bc') →
  stack frame = exception_obj :: below →
  step bc state
  = (bc',
     Outcome (if Py.is_none (jvm.value exception_obj)
              then "null pointer" else "assertion error")
             (mutate state (with_stack below frame))).
Proof.
  intros Hdec Hstack.
  rewrite (step_decode _ _ _ _ _ Hdec). f_equal.
  unfold exec. rewrite (pop_with_stack _ _ _ Hstack).
  destruct (Py.is_none (jvm.value exception_obj)); [reflexivity|].
  destruct (_ || _); reflexivity.
Qed.

Lemma step_throw_witness :
  (step (initial_bc (Samples.only [jvm.Throw]))
        (Samples.at_offset 0 [mkValue jvm.Reference (PyStr "Object:java/lang/Exception")])).2
  = Outcome "assertion error"
      (mutate (Samples.at_offset 0 [mkValue jvm.Reference (PyStr "Object:java/lang/Exception")])
         (with_stack []
            {| locals := ∅;
               stack := [mkValue jvm.Reference (PyStr "Object:java/lang/Exception")];
               pc := mkPC Samples.m0 0 |})).
Proof.
  rewrite (step_throw (initial_bc (Samples.only [jvm.Throw])) _
             {| locals := ∅;
                stack := [mkValue jvm.Reference (PyStr "Object:java/lang/Exception")];
                pc := mkPC Samples.m0 0 |}
             (mkBytecode (Samples.only [jvm.Throw])
                [(Samples.m0, [jvm.Throw])])
             (mkValue jvm.Reference (PyStr "Object:java/lang/Exception")) []).
  - reflexivity.
  - reflexivity.
  - reflexivity.
Defined.

(** ** Loading a local that was never written *)

(** The default pushed for a slot that is not in [frame.locals]. *)
Lemma exec_load_unset t i state frame :
  locals frame !! i = None →
  exec (jvm.Load t i) state frame
  = match t with
    | jvm.Int => Next (mutate state (advance (push (jvm.Value_int 0) frame)))
    | jvm.Boolean =>
      Next (mutate state (advance (push (jvm.Value_boolean false) frame)))
    | jvm.Reference | jvm.Object _ =>
      Next (mutate state (advance (push (mkValue t PyNone) frame)))
    | _ => Abort NotImplementedError
    end.
Proof. intros H. unfold exec. rewrite H. destruct t; reflexivity. Qed.

(** C5.  When the next instruction loads, with declared type Integer,
    Boolean or Reference, a local slot that has not been written, the step
    pushes 0, false or null respectively and advances the program counter
    by 1; it returns the state, no exception escapes. *)
Theorem step_load_unset bc state frame bc' t i :
  decode bc state = Some (frame, jvm.Load t i, bc') →
  locals frame !! i = None →
  t = jvm.Int ∨ t = jvm.Boolean ∨ t = jvm.Reference →
  let default :=
    match t with
    | jvm.Int => mkValue jvm.Int (PyInt 0)
    | jvm.Boolean => mkValue jvm.Boolean (PyBool false)
    | _ => mkValue jvm.Reference PyNone
    end in
  step bc state
  = (bc',
     Next (mutate state
             {| locals := locals frame;
                stack := default :: stack frame;
                pc := mkPC (method (pc frame)) (offset (pc frame) + 1) |})).
Proof.
  intros Hdec Hunset Ht default. subst default.
  rewrite (step_decode _ _ _ _ _ Hdec). f_equal.
  rewrite (exec_load_unset _ _ _ _ Hunset).
  destruct Ht as [-> | [-> | ->]]; reflexivity.
Qed.

Lemma step_load_unset_witness :
  (step (initial_bc (Samples.only [jvm.Load jvm.Reference 3]))
        (Samples.at_offset 0 [])).2
  = Next (Samples.at_offset 1 [mkValue jvm.Reference PyNone]).
Proof.
  rewrite (step_load_unset (initial_bc (Samples.only [jvm.Load jvm.Reference 3])) _
             {| locals := ∅; stack := []; pc := mkPC Samples.m0 0 |}
             (mkBytecode (Samples.only [jvm.Load jvm.Reference 3])
                [(Samples.m0, [jvm.Load jvm.Reference 3])])
             jvm.Reference 3).
  - reflexivity.
  - reflexivity.
  - reflexivity.
  - right. right. reflexivity.
Defined.

(** ** Code store lookup *)

Lemma index_pos_outside n i :
  n <= i ∨ i < - n → Py.index_pos n i = None.
Proof.
  intros H. unfold Py.index_pos.
  destruct (Z.leb_spec 0 i), (Z.ltb_spec i n), (Z.leb_spec (- n) i),
    (Z.ltb_spec i 0); simpl; try reflexivity; lia.
Qed.

Lemma getitem_result bc pc opcodes :
  code_of bc (method pc) = Some opcodes →
  (getitem bc pc).2 = Py.list_getitem opcodes (offset pc).
Proof.
  unfold code_of, getitem.
  destruct (dict_get (methods bc) (method pc)) as [ops|].
  - intros [= ->]. reflexivity.
  - intros ->. reflexivity.
Qed.

(** C6, as stated, fails: the offset [-1] is out of range for a method of
    two instructions, and the lookup returns the last instruction. *)
Lemma getitem_negative_offset_returns :
  let body := [jvm.Push (jvm.Value_int 1); jvm.Return None] in
  let bc := initial_bc (Samples.only body) in
  let pc := mkPC Samples.m0 (-1) in
  code_of bc (method pc) = Some body
  ∧ offset pc < 0
  ∧ (getitem bc pc).2 = Returns (jvm.Return None).
Proof. vm_compute. repeat split; reflexivity. Qed.

(** C6, amended.  For every program counter whose offset is at least the
    length of its method's instruction sequence, or below the negated
    length, the code store lookup raises [IndexError] and returns no
    instruction. *)
Theorem getitem_out_of_range bc pc opcodes :
  code_of bc (method pc) = Some opcodes →
  Z.of_nat (List.length opcodes) <= offset pc
  ∨ offset pc < - Z.of_nat (List.length opcodes) →
  (getitem bc pc).2 = Raised IndexError.
Proof.
  intros Hcode Hrange. rewrite (getitem_result _ _ _ Hcode).
  unfold Py.list_getitem. rewrite index_pos_outside by assumption.
  reflexivity.
Qed.

Lemma getitem_out_of_range_witness :
  (getitem (initial_bc (Samples.only [jvm.Goto 0])) (mkPC Samples.m0 1)).2
  = Raised IndexError.
Proof.
  apply (getitem_out_of_range _ (mkPC Samples.m0 1) [jvm.Goto 0]).
  - reflexivity.
  - left. simpl. lia.
Defined.

(** Inside [-length, length) the lookup returns an instruction: the one at
    the offset, counted from the end when the offset is negative. *)
Lemma getitem_in_range bc pc opcodes :
  code_of bc (method pc) = Some opcodes →
  - Z.of_nat (List.length opcodes) <= offset pc
    < Z.of_nat (List.length opcodes) →
  ∃ opr, (getitem bc pc).2 = Returns opr.
Proof.
  intros Hcode Hrange. rewrite (getitem_result _ _ _ Hcode).
  unfold Py.list_getitem, Py.index_pos.
  destruct (Z.leb_spec 0 (offset pc)), (Z.ltb_spec (offset pc)
    (Z.of_nat (List.length opcodes))), (Z.leb_spec (- Z.of_nat (List.length opcodes))
    (offset pc)), (Z.ltb_spec (offset pc) 0); simpl; try lia.
  - destruct (nth_error opcodes (Z.to_nat (offset pc))) eqn:E; eauto.
    apply nth_error_None in E. lia.
  - destruct (nth_error opcodes
      (Z.to_nat (Z.of_nat (List.length opcodes) + offset pc))) eqn:E; eauto.
    apply nth_error_None in E. lia.
Qed.

(** ** The driver on a branch to itself *)

Section TightLoop.

Variable suite : AbsMethodID → option (list Opcode).
Variable methodid : AbsMethodID.
Variable input : list Value.
Hypothesis body : suite methodid = Some [jvm.Goto 0].

(** The first step decodes the method and comes back to the initial
    state. *)
Lemma tight_loop_first_step :
  step (initial_bc suite) (initial_state methodid input)
  = (cached_bc suite methodid [jvm.Goto 0], Next (initial_state methodid input)).
Proof.
  unfold step, getitem. simpl. rewrite body. reflexivity.
Qed.

(** Every later step finds the method in the cache and does the same. *)
Lemma tight_loop_step :
  step (cached_bc suite methodid [jvm.Goto 0]) (initial_state methodid input)
  = (cached_bc suite methodid [jvm.Goto 0], Next (initial_state methodid input)).
Proof.
  unfold step, getitem. simpl.
  destruct (decide (methodid = methodid)); [reflexivity|contradiction].
Qed.

Lemma tight_loop_run n :
  run n (cached_bc suite methodid [jvm.Goto 0])
      (initial_state methodid input) = Printed "*"
  ∧ run_steps n (cached_bc suite methodid [jvm.Goto 0])
        (initial_state methodid input) = n.
Proof.
  induction n as [|n [IHrun IHsteps]]; [split; reflexivity|].
  cbn [run run_steps]. rewrite tight_loop_step. split; congruence.
Qed.

End TightLoop.

Lemma run_unfold n bc state :
  run (S n) bc state
  = match step bc state with
    | (bc', Next state') => run n bc' state'
    | (_, Outcome o _) => Printed o
    | (_, Abort e) => Crashed e
    end.
Proof. reflexivity. Qed.






(** ** Return *)

(** Returning from the last frame: the call stack is left empty and the
    outcome is "ok". *)
Lemma step_return_last bc state frame t bc' :
  decode bc state = Some (frame, jvm.Return t, bc') →
  t = None ∨ stack frame ≠ [] →
  tail (frames state) = [] →
  step bc state = (bc', Outcome "ok" {| heap := heap state; frames := [] |}).
Proof.
  intros Hdec Hval Hlast. rewrite (step_decode _ _ _ _ _ Hdec). f_equal.
  unfold exec. rewrite Hlast. destruct t as [ty|]; [|reflexivity].
  destruct Hval as [|Hval]; [discriminate|].
  unfold pop. destruct (stack frame); [contradiction|reflexivity].
Qed.

(** Returning nothing to a caller: the caller's program counter advances
    by 1. *)
Lemma step_return_void_to_caller bc state frame bc' caller below :
  decode bc state = Some (frame, jvm.Return None, bc') →
  tail (frames state) = caller :: below →
  step bc state
  = (bc',
     Next {| heap := heap state;
             frames :=
               {| locals := locals caller;
                  stack := stack caller;
                  pc := mkPC (method (pc caller)) (offset (pc caller) + 1) |}
               :: below |}).
Proof.
  intros Hdec Hrest. rewrite (step_decode _ _ _ _ _ Hdec). f_equal.
  unfold exec. rewrite Hrest. reflexivity.
Qed.

(** Returning a value to a caller: the value popped from the returning
    frame is pushed on the caller's operand stack and the caller's program
    counter advances by 1. *)
Lemma step_return_value_to_caller bc state frame ty bc' v items caller below :
  decode bc state = Some (frame, jvm.Return (Some ty), bc') →
  stack frame = v :: items →
  tail (frames state) = caller :: below →
  step bc state
  = (bc',
     Next {| heap := heap state;
             frames :=
               {| locals := locals caller;
                  stack := v :: stack caller;
                  pc := mkPC (method (pc caller)) (offset (pc caller) + 1) |}
               :: below |}).
Proof.
  intros Hdec Hstack Hrest. rewrite (step_decode _ _ _ _ _ Hdec). f_equal.
  unfold exec. rewrite (pop_with_stack _ _ _ Hstack), Hrest. reflexivity.
Qed.

(** The first step of a run whose entry method starts with a return
    without argument. *)
Lemma step_entry_return suite methodid input body :
  suite methodid = Some (jvm.Return None :: body) →
  step (initial_bc suite) (initial_state methodid input)
  = (mkBytecode suite [(methodid, jvm.Return None :: body)],
     Outcome "ok" {| heap := ∅; frames := [] |}).
Proof.
  intros Hbody. unfold step, getitem. simpl. rewrite Hbody. reflexivity.
Qed.

(** C8.  For every entry method whose first instruction is a return
    without argument, the run prints "ok" and the first step leaves the
    call stack empty.  In general, for a state whose next instruction is a
    return: when there is no caller below the returning frame the step
    yields "ok" with the call stack left empty; when there is one, the
    returning frame is popped, the returned value, if any, is pushed on the
    caller's operand stack, and the caller's program counter advances by
    1. *)
Theorem return_semantics :
  (∀ suite methodid input body,
     suite methodid = Some (jvm.Return None :: body) →
     main suite methodid input = Printed "ok"
     ∧ ∃ bc' state',
         step (initial_bc suite) (initial_state methodid input)
         = (bc', Outcome "ok" state')
         ∧ frames state' = [])
  ∧ (∀ bc state frame t bc',
       decode bc state = Some (frame, jvm.Return t, bc') →
       t = None ∨ stack frame ≠ [] →
       tail (frames state) = [] →
       step bc state
       = (bc', Outcome "ok" {| heap := heap state; frames := [] |}))
  ∧ (∀ bc state frame bc' caller below,
       decode bc state = Some (frame, jvm.Return None, bc') →
       tail (frames state) = caller :: below →
       step bc state
       = (bc',
          Next {| heap := heap state;
                  frames :=
                    {| locals := locals caller;
                       stack := stack caller;
                       pc := mkPC (method (pc caller))
                                  (offset (pc caller) + 1) |}
                    :: below |}))
  ∧ (∀ bc state frame ty bc' v items caller below,
       decode bc state = Some (frame, jvm.Return (Some ty), bc') →
       stack frame = v :: items →
       tail (frames state) = caller :: below →
       step bc state
       = (bc',
          Next {| heap := heap state;
                  frames :=
                    {| locals := locals caller;
                       stack := v :: stack caller;
                       pc := mkPC (method (pc caller))
                                  (offset (pc caller) + 1) |}
                    :: below |})).
Proof.
  split; [|split; [|split]].
  - intros suite methodid input body Hbody. split.
    + unfold main. rewrite (run_unfold 999).
      rewrite (step_entry_return _ _ _ _ Hbody). reflexivity.
    + eexists _, _. split; [apply (step_entry_return _ _ _ _ Hbody)|].
      reflexivity.
  - apply step_return_last.
  - apply step_return_void_to_caller.
  - apply step_return_value_to_caller.
Qed.

Lemma return_semantics_witness :
  main (Samples.only [jvm.Return None]) Samples.m0 [] = Printed "ok"
  ∧ ∃ bc' state',
      step (initial_bc (Samples.only [jvm.Return None]))
           (initial_state Samples.m0 [])
      = (bc', Outcome "ok" state')
      ∧ frames state' = [].
Proof.
  apply (proj1 return_semantics (Samples.only [jvm.Return None])
           Samples.m0 [] []).
  reflexivity.
Defined.

(** ** What a step does to the call stack and to the heap *)

(** The state left by executing an instruction has the heap of the state
    it started from, and its call stack is one of: the same stack with the
    top frame updated; for a return to a caller, the stack below the top
    frame with the caller updated; for a return from the last frame, the
    empty stack. *)
Lemma exec_shape opr state frame s' :
  state_after (exec opr state frame) = Some s' →
  heap s' = heap state
  ∧ ((∃ frame', frames s' = frame' :: tail (frames state))
     ∨ (∃ t caller below caller',
          opr = jvm.Return t
          ∧ tail (frames state) = caller :: below
          ∧ frames s' = caller' :: below
          ∧ exec opr state frame = Next s')
     ∨ (∃ t,
          opr = jvm.Return t
          ∧ tail (frames state) = []
          ∧ frames s' = []
          ∧ exec opr state frame = Outcome "ok" s')).
Proof.
  unfold state_after.
  destruct opr as [v|t i|t i|t op|cond target|cond target|target|cn|w
                  |static f| |m|m|m|t|mn];
    unfold exec, invoke_result;
    repeat case_match; intros; simplify_eq; simpl;
    (split; [reflexivity|]);
    first [ left; eexists; reflexivity
          | right; left; do 4 eexists; repeat split; eauto; fail
          | right; right; eexists; repeat split; eauto; fail ].
Qed.

Lemma step_inv bc state bc' r s' :
  step bc state = (bc', r) →
  state_after r = Some s' →
  ∃ frame rest opr,
    frames state = frame :: rest
    ∧ decode bc state = Some (frame, opr, bc')
    ∧ r = exec opr state frame.
Proof.
  unfold step, decode. destruct (frames state) as [|frame rest].
  { intros [= <- <-]. discriminate. }
  destruct (getitem bc (pc frame)) as [bc1 [opr|e]].
  - intros [= <- <-] _. eauto 6.
  - intros [= <- <-]. discriminate.
Qed.

(** No step makes the call stack longer. *)
Lemma step_frames_le bc state bc' r s' :
  step bc state = (bc', r) →
  state_after r = Some s' →
  (List.length (frames s') <= List.length (frames state))%nat.
Proof.
  intros Hstep Hafter.
  destruct (step_inv _ _ _ _ _ Hstep Hafter)
    as (frame & rest & opr & Hframes & _ & ->).
  destruct (exec_shape _ _ _ _ Hafter) as [_ Hshape].
  rewrite Hframes in *. simpl in Hshape.
  destruct Hshape as [[f' ->] | [(t & c & below & c' & _ & -> & -> & _)
                              | (t & _ & -> & -> & _)]]; simpl; lia.
Qed.

(** A step that returns the state of a one-frame call stack leaves one
    frame. *)
Lemma step_one_frame bc state bc' s' :
  step bc state = (bc', Next s') →
  List.length (frames state) = 1%nat →
  List.length (frames s') = 1%nat.
Proof.
  intros Hstep Hone.
  destruct (step_inv _ _ _ (Next s') s' Hstep eq_refl)
    as (frame & rest & opr & Hframes & _ & Hexec).
  assert (state_after (exec opr state frame) = Some s') as Hafter
    by (rewrite <- Hexec; reflexivity).
  destruct (exec_shape _ _ _ _ Hafter) as [_ Hshape].
  rewrite Hframes in *. simpl in *.
  destruct rest; [|discriminate].
  destruct Hshape as [[f' ->] | [(t & c & below & c' & _ & ? & _)
                              | (t & _ & _ & _ & Hok)]].
  - reflexivity.
  - discriminate.
  - rewrite <- Hexec in Hok. discriminate.
Qed.

(** A step that leaves the call stack of a one-frame state empty executed
    a return. *)
Lemma step_emptied_by_return bc state bc' r s' :
  step bc state = (bc', r) →
  state_after r = Some s' →
  List.length (frames state) = 1%nat →
  frames s' = [] →
  ∃ frame t, decode bc state = Some (frame, jvm.Return t, bc')
             ∧ r = Outcome "ok" s'.
Proof.
  intros Hstep Hafter Hone Hempty.
  destruct (step_inv _ _ _ _ _ Hstep Hafter)
    as (frame & rest & opr & Hframes & Hdec & ->).
  destruct (exec_shape _ _ _ _ Hafter) as [_ Hshape].
  rewrite Hempty in Hshape.
  destruct Hshape as [[f' ?] | [(t & c & below & c' & _ & _ & ? & _)
                              | (t & -> & _ & _ & Hok)]];
    try discriminate.
  eauto.
Qed.

(** No step changes the heap. *)
Lemma step_heap bc state bc' r s' :
  step bc state = (bc', r) →
  state_after r = Some s' →
  heap s' = heap state.
Proof.
  intros Hstep Hafter.
  destruct (step_inv _ _ _ _ _ Hstep Hafter)
    as (frame & rest & opr & _ & _ & ->).
  apply (exec_shape _ _ _ _ Hafter).
Qed.

(** Invariants of a run are proved on its first state and through one
    transition. *)
Lemma reachable_ind suite methodid input (P : Bytecode * State → Prop) :
  P (initial_bc suite, initial_state methodid input) →
  (∀ c c', P c → transition c c' → P c') →
  ∀ c, reachable suite methodid input c → P c.
Proof.
  intros Hinit Hstep c Hreach. unfold reachable in Hreach.
  revert c Hreach. apply (rtc_ind_r (R := transition) P _ Hinit).
  intros y z _ Hyz Hy. exact (Hstep y z Hy Hyz).
Qed.

(** C9.  No step pushes a frame: the state a step leaves never has more
    frames than the state it started from, whatever the instruction,
    invocations included.  Hence every state a run reaches from its
    one-frame initial state has exactly one frame, and the only step that
    leaves such a state without a frame is a return, which ends the run
    with "ok". *)
Theorem call_stack_never_grows :
  (∀ bc state bc' r s',
     step bc state = (bc', r) →
     state_after r = Some s' →
     (List.length (frames s') <= List.length (frames state))%nat)
  ∧ (∀ suite methodid input c,
       reachable suite methodid input c →
       List.length (frames c.2) = 1%nat)
  ∧ (∀ suite methodid input c bc' r s',
       reachable suite methodid input c →
       step c.1 c.2 = (bc', r) →
       state_after r = Some s' →
       frames s' = [] →
       ∃ frame t, decode c.1 c.2 = Some (frame, jvm.Return t, bc')
                  ∧ r = Outcome "ok" s').
Proof.
  assert (∀ suite methodid input c,
            reachable suite methodid input c →
            List.length (frames c.2) = 1%nat) as Hone.
  { intros suite methodid input.
    apply (reachable_ind suite methodid input
             (λ c, List.length (frames c.2) = 1%nat)).
    - reflexivity.
    - intros c c' IH Htrans. apply (step_one_frame _ _ _ _ Htrans IH). }
  split; [|split].
  - apply step_frames_le.
  - apply Hone.
  - intros suite methodid input c bc' r s' Hreach Hstep Hafter Hempty.
    apply (step_emptied_by_return _ _ _ _ _ Hstep Hafter); [|assumption].
    apply (Hone _ _ _ _ Hreach).
Qed.

Lemma call_stack_never_grows_witness :
  List.length
    (frames (Samples.at_offset 1 [jvm.Value_int 3])) = 1%nat.
Proof.
  apply (proj1 (proj2 call_stack_never_grows)
           (Samples.only Samples.add_3_4) Samples.m0 []
           (mkBytecode (Samples.only Samples.add_3_4)
              [(Samples.m0, Samples.add_3_4)],
            Samples.at_offset 1 [jvm.Value_int 3])).
  apply rtc_once. vm_compute. reflexivity.
Defined.

(** C10.  Every step leaves the heap as it found it: no instruction,
    object allocation included, writes to it.  The heap is created empty,
    so it is empty in every state a run reaches. *)
Theorem heap_never_written :
  (∀ bc state bc' r s',
     step bc state = (bc', r) →
     state_after r = Some s' →
     heap s' = heap state)
  ∧ (∀ suite methodid input c,
       reachable suite methodid input c →
       heap c.2 = ∅).
Proof.
  split.
  - apply step_heap.
  - intros suite methodid input.
    apply (reachable_ind suite methodid input (λ c, heap c.2 = ∅)).
    + reflexivity.
    + intros c c' IH Htrans.
      rewrite (step_heap _ _ _ (Next c'.2) c'.2 Htrans eq_refl). exact IH.
Qed.

Lemma heap_never_written_witness :
  heap (Samples.at_offset 1
          [mkValue jvm.Reference (PyStr "Object:java/lang/Object")]) = ∅.
Proof.
  apply (proj2 heap_never_written
           (Samples.only [jvm.New "java/lang/Object"]) Samples.m0 []
           (mkBytecode (Samples.only [jvm.New "java/lang/Object"])
              [(Samples.m0, [jvm.New "java/lang/Object"])],
            Samples.at_offset 1
              [mkValue jvm.Reference (PyStr "Object:java/lang/Object")])).
  apply rtc_once. vm_compute. reflexivity.
Defined.

(** * Further properties of the interpreter *)

(** ** The cache of the code store *)

(** X1.  A lookup never changes what the code store resolves a method to:
    after [bc[pc]], whether it returned an instruction or raised, every
    method has the instruction list it had before, and the suite is the
    same. *)
Theorem getitem_preserves_code bc pc m :
  code_of (getitem bc pc).1 m = code_of bc m
  ∧ suite (getitem bc pc).1 = suite bc.
Proof.
  unfold getitem, code_of.
  destruct (dict_get (methods bc) (method pc)) as [ops|] eqn:Hget;
    [split; reflexivity|].
  destruct (suite bc (method pc)) as [ops|] eqn:Hsuite;
    [|simpl; rewrite ?Hget; split; reflexivity].
  simpl. split; [|reflexivity].
  destruct (decide (method pc = m)) as [<-|Hne].
  - rewrite Hget, Hsuite. reflexivity.
  - reflexivity.
Qed.

(** X2.  Memoization: once a method that resolves to [opcodes] has been
    looked up, its instruction list is in the cache, and every later lookup
    in that method answers from the cache: it leaves the cache as it is and
    does not depend on the suite. *)
Theorem getitem_memoizes bc pc opcodes :
  code_of bc (method pc) = Some opcodes →
  dict_get (methods (getitem bc pc).1) (method pc) = Some opcodes
  ∧ ∀ suite' pc',
      method pc' = method pc →
      getitem (mkBytecode suite' (methods (getitem bc pc).1)) pc'
      = (mkBytecode suite' (methods (getitem bc pc).1),
         Py.list_getitem opcodes (offset pc')).
Proof.
  intros Hcode.
  assert (dict_get (methods (getitem bc pc).1) (method pc) = Some opcodes)
    as Hcached.
  { revert Hcode. unfold code_of, getitem.
    destruct (dict_get (methods bc) (method pc)) as [ops|] eqn:Hget.
    - intros [= ->]. exact Hget.
    - intros ->. simpl.
      destruct (decide (method pc = method pc)); [reflexivity|contradiction]. }
  split; [exact Hcached|].
  intros suite' pc' Hsame. unfold getitem at 1. simpl.
  rewrite Hsame, Hcached. reflexivity.
Qed.

Lemma getitem_memoizes_witness :
  dict_get
    (methods (getitem (initial_bc (Samples.only Samples.add_3_4))
                      (mkPC Samples.m0 0)).1) Samples.m0
  = Some Samples.add_3_4.
Proof.
  apply (proj1 (getitem_memoizes
                  (initial_bc (Samples.only Samples.add_3_4))
                  (mkPC Samples.m0 0) Samples.add_3_4 eq_refl)).
Defined.

(** ** The initial frame *)

Lemma seed_locals_lookup values : ∀ i (l : gmap Z Value) z,
  seed_locals i values l !! z
  = if (i <=? z) && (z <? i + Z.of_nat (List.length values))
    then values !! Z.to_nat (z - i)
    else l !! z.
Proof.
  induction values as [|v values IH]; intros i l z; simpl seed_locals.
  - destruct (Z.leb_spec i z), (Z.ltb_spec z (i + Z.of_nat (@List.length Value [])));
      simpl in *; try reflexivity; lia.
  - rewrite IH. simpl List.length.
    destruct (Z.leb_spec (i + 1) z), (Z.leb_spec i z),
      (Z.ltb_spec z (i + 1 + Z.of_nat (List.length values))),
      (Z.ltb_spec z (i + Z.of_nat (S (List.length values))));
      simpl; try lia.
    + replace (Z.to_nat (z - i)) with (S (Z.to_nat (z - (i + 1)))) by lia.
      reflexivity.
    + rewrite lookup_insert_ne by lia. reflexivity.
    + assert (z = i) as -> by lia. rewrite lookup_insert_eq.
      replace (Z.to_nat (i - i)) with 0%nat by lia. reflexivity.
    + rewrite lookup_insert_ne by lia. reflexivity.
Qed.

(** X3.  The driver writes the input values into the local slots
    [0 .. k-1] in order and into no other slot: slot [i] of the initial
    frame holds the [i]-th input value, and a slot that is negative or at
    least the number of inputs is unset.  The initial frame has an empty
    operand stack and starts the entry method at offset 0. *)
Theorem initial_frame_locals methodid input :
  (∀ i : nat,
     locals (initial_frame methodid input) !! Z.of_nat i = input !! i)
  ∧ (∀ z : Z,
       z < 0 ∨ Z.of_nat (List.length input) <= z →
       locals (initial_frame methodid input) !! z = None)
  ∧ stack (initial_frame methodid input) = []
  ∧ pc (initial_frame methodid input) = mkPC methodid 0.
Proof.
  unfold initial_frame. simpl.
  split; [|split; [|split; reflexivity]].
  - intros i. rewrite seed_locals_lookup.
    destruct (Z.leb_spec 0 (Z.of_nat i)); [|lia].
    destruct (Z.ltb_spec (Z.of_nat i) (0 + Z.of_nat (List.length input)));
      simpl.
    + f_equal. lia.
    + symmetry. apply lookup_ge_None. lia.
  - intros z Hz. rewrite seed_locals_lookup.
    destruct (Z.leb_spec 0 z), (Z.ltb_spec z (0 + Z.of_nat (List.length input)));
      simpl; try apply lookup_empty; lia.
Qed.

Lemma initial_frame_locals_witness :
  locals (initial_frame Samples.m0 [jvm.Value_int 5; jvm.Value_int 6]) !! 2
  = None.
Proof.
  apply (proj1 (proj2 (initial_frame_locals Samples.m0
                         [jvm.Value_int 5; jvm.Value_int 6])) 2).
  right. simpl. lia.
Defined.

(** ** The outcome vocabulary *)

Lemma string_method_outcome method_name string_value args o :
  string_method method_name string_value args = Returns (HOutcome o) →
  o = "out of bounds" ∨ o = "null pointer".
Proof.
  unfold string_method, bind. intros H.
  repeat case_match; simplify_eq; auto.
Qed.

Lemma handle_method_invocation_outcome m obj_ref args o :
  handle_method_invocation m obj_ref args = Returns (HOutcome o) →
  o = "out of bounds" ∨ o = "null pointer".
Proof.
  unfold handle_method_invocation, handle_string_method. intros H.
  repeat case_match; simplify_eq; eauto using string_method_outcome.
Qed.

Lemma exec_outcome opr state frame o s' :
  exec opr state frame = Outcome o s' → In o step_outcomes.
Proof.
  assert (∀ x, x = "out of bounds" ∨ x = "null pointer" →
               In x step_outcomes) as Hemu.
  { intros x [-> | ->]; simpl; auto 6. }
  destruct opr as [v|t i|t i|t op|cond target|cond target|target|cn|w
                  |static f| |m|m|m|t|mn];
    unfold exec, invoke_result, binary, bind; intros H;
    repeat case_match; simplify_eq;
    try (simpl; auto 6; fail);
    eauto using handle_method_invocation_outcome.
Qed.

Lemma step_outcome bc state bc' o s' :
  step bc state = (bc', Outcome o s') → In o step_outcomes.
Proof.
  intros Hstep.
  destruct (step_inv _ _ _ (Outcome o s') s' Hstep eq_refl)
    as (frame & rest & opr & _ & _ & Hexec).
  symmetry in Hexec. exact (exec_outcome _ _ _ _ _ Hexec).
Qed.

Lemma step_outcome_not_star bc state bc' s' :
  step bc state ≠ (bc', Outcome "*" s').
Proof.
  intros Hstep. apply step_outcome in Hstep. simpl in Hstep.
  repeat destruct Hstep as [Hstep|Hstep]; try discriminate Hstep.
  exact Hstep.
Qed.

Lemma run_prints_outcome_line n : ∀ bc state line,
  run n bc state = Printed line → In line outcome_lines.
Proof.
  induction n as [|n IH]; intros bc state line.
  - intros [= <-]. simpl. auto 7.
  - rewrite run_unfold.
    destruct (step bc state) as [bc' [s'|o s'|e]] eqn:Hstep.
    + apply IH.
    + intros [= <-]. apply step_outcome in Hstep. simpl in *.
      intuition.
    + discriminate.
Qed.

(** X5.  Whatever the suite, the entry method and the input, a line the
    driver prints is one of "ok", "divide by zero", "assertion error",
    "out of bounds", "null pointer" and "*". *)
Theorem main_prints_outcome_line suite methodid input line :
  main suite methodid input = Printed line → In line outcome_lines.
Proof. apply run_prints_outcome_line. Qed.

Lemma main_prints_outcome_line_witness :
  In "divide by zero" outcome_lines.
Proof.
  apply (main_prints_outcome_line (Samples.only Samples.div_by_zero)
           Samples.m0 []).
  vm_compute. reflexivity.
Defined.

(** ** The driver loop and the transitions of a run *)

Lemma run_nsteps k : ∀ n c c',
  nsteps transition k c c' →
  run (k + n) c.1 c.2 = run n c'.1 c'.2.
Proof.
  induction k as [|k IH]; intros n c c' Hsteps.
  - inversion Hsteps; subst. reflexivity.
  - inversion Hsteps as [|? ? y ? Hfirst Hrest]; subst.
    change (S k + n)%nat with (S (k + n)). rewrite run_unfold.
    unfold transition in Hfirst. rewrite Hfirst.
    apply (IH n y c' Hrest).
Qed.

(** X4.  The driver reports what the first step that does not return the
    state does: if the run makes [k < 1000] transitions and the next call
    of [step] returns the text [o], the driver prints [o]; if that call
    raises [e], the process dies of [e] and prints nothing. *)
Theorem main_first_terminal_step suite methodid input k c bc' :
  nsteps transition k (initial_bc suite, initial_state methodid input) c →
  (k < step_bound)%nat →
  (∀ o s', step c.1 c.2 = (bc', Outcome o s') →
           main suite methodid input = Printed o)
  ∧ (∀ e, step c.1 c.2 = (bc', Abort e) →
          main suite methodid input = Crashed e).
Proof.
  intros Hsteps Hk. unfold main.
  replace step_bound with (k + S (step_bound - S k))%nat by lia.
  rewrite (run_nsteps k _ _ _ Hsteps), run_unfold.
  split; intros ? **; match goal with H : step _ _ = _ |- _ => rewrite H end;
    reflexivity.
Qed.

Lemma main_first_terminal_step_witness :
  main (Samples.only Samples.div_by_zero) Samples.m0 []
  = Printed "divide by zero".
Proof.
  refine (proj1 (main_first_terminal_step
                   (Samples.only Samples.div_by_zero) Samples.m0 [] 2
                   (cached_bc (Samples.only Samples.div_by_zero) Samples.m0
                      Samples.div_by_zero,
                    Samples.at_offset 2 [jvm.Value_int 0; jvm.Value_int 4])
                   (cached_bc (Samples.only Samples.div_by_zero) Samples.m0
                      Samples.div_by_zero) _ _)
            "divide by zero" (Samples.at_offset 2 []) _).
  - apply (nsteps_l _ _ _
             (cached_bc (Samples.only Samples.div_by_zero) Samples.m0
                Samples.div_by_zero,
              Samples.at_offset 1 [jvm.Value_int 4])).
    + vm_compute. reflexivity.
    + apply nsteps_once. vm_compute. reflexivity.
  - unfold step_bound. lia.
  - vm_compute. reflexivity.
Defined.

Lemma run_star_nsteps n : ∀ bc state,
  run n bc state = Printed "*" →
  ∃ c, nsteps transition n (bc, state) c.
Proof.
  induction n as [|n IH]; intros bc state.
  - intros _. exists (bc, state). apply nsteps_O.
  - rewrite run_unfold.
    destruct (step bc state) as [bc' [s'|o s'|e]] eqn:Hstep.
    + intros Hrun. destruct (IH _ _ Hrun) as [c Hc].
      exists c. apply (nsteps_l _ _ _ (bc', s')); [exact Hstep|exact Hc].
    + intros [= ->]. destruct (step_outcome_not_star _ _ _ _ Hstep).
    + discriminate.
Qed.

(** X6.  The driver prints the divergence marker "*" exactly when the run
    makes 1000 transitions, that is when all 1000 calls of [step] return
    the state: no step returns the text "*". *)
Theorem main_star_iff suite methodid input :
  main suite methodid input = Printed "*"
  ↔ ∃ c, nsteps transition step_bound
           (initial_bc suite, initial_state methodid input) c.
Proof.
  unfold main. split.
  - apply run_star_nsteps.
  - intros [c Hsteps].
    replace step_bound with (step_bound + 0)%nat by lia.
    rewrite (run_nsteps _ _ _ _ Hsteps). reflexivity.
Qed.

Lemma main_star_iff_witness :
  ∃ c, nsteps transition step_bound
         (initial_bc (Samples.only [jvm.Goto 0]),
          initial_state Samples.m0 []) c.
Proof.
  apply (proj1 (main_star_iff (Samples.only [jvm.Goto 0]) Samples.m0 [])).
  unfold main. rewrite (run_unfold 999).
  rewrite (tight_loop_first_step (Samples.only [jvm.Goto 0]) Samples.m0 []
             eq_refl).
  apply (tight_loop_run (Samples.only [jvm.Goto 0]) Samples.m0 [] 999).
Defined.

(** ** Popping operands and arguments *)

Lemma pop_inv frame v frame' :
  pop frame = Some (v, frame') →
  stack frame = v :: stack frame'
  ∧ locals frame' = locals frame
  ∧ pc frame' = pc frame.
Proof.
  unfold pop. destruct (stack frame) as [|x items] eqn:E; [discriminate|].
  intros [= <- <-]. simpl. auto.
Qed.

Lemma pop_args_inv n : ∀ acc frame args frame',
  pop_args n acc frame = Some (args, frame') →
  (∃ popped,
     List.length popped = n
     ∧ stack frame = (popped ++ stack frame')%list
     ∧ args = (rev popped ++ acc)%list)
  ∧ locals frame' = locals frame
  ∧ pc frame' = pc frame.
Proof.
  induction n as [|n IH]; intros acc frame args frame'; simpl.
  - intros [= <- <-]. split; [exists []; auto|auto].
  - destruct (pop frame) as [[v f1]|] eqn:Hpop; [|discriminate].
    intros Hrest. apply pop_inv in Hpop as (Hs & Hl & Hp).
    apply IH in Hrest as ((popped & Hlen & Hstack & Hargs) & Hl' & Hp').
    split; [|split; congruence].
    exists (v :: popped). simpl. rewrite Hs, Hstack, Hargs, <- app_assoc.
    auto.
Qed.

Lemma pop_args_some n : ∀ acc frame popped below,
  List.length popped = n →
  stack frame = (popped ++ below)%list →
  pop_args n acc frame = Some ((rev popped ++ acc)%list, with_stack below frame).
Proof.
  induction n as [|n IH]; intros acc frame popped below Hlen Hstack.
  - destruct popped; [|discriminate]. simpl in *.
    unfold with_stack. rewrite <- Hstack. destruct frame. reflexivity.
  - destruct popped as [|v popped]; [discriminate|]. simpl in *.
    rewrite (pop_with_stack _ _ _ Hstack).
    rewrite (IH (v :: acc) _ popped below); [|lia|reflexivity].
    rewrite <- app_assoc. reflexivity.
Qed.

Lemma pop_args_none n : ∀ acc frame,
  pop_args n acc frame = None ↔ (List.length (stack frame) < n)%nat.
Proof.
  induction n as [|n IH]; intros acc frame; simpl.
  - split; [discriminate|lia].
  - unfold pop. destruct (stack frame) as [|v items] eqn:E; simpl.
    + split; [lia|reflexivity].
    + rewrite IH. simpl. lia.
Qed.

(** X7.  The loop that pops the arguments of an invocation restores the
    order in which they were pushed: when the arguments [args] were pushed
    first to last on the operand stack, popping [len(args)] of them yields
    exactly [args] and leaves the operands below.  The loop fails (with the
    [IndexError] of popping an empty list) exactly when the operand stack
    holds fewer values than the method has parameters. *)
Theorem pop_args_restores_order :
  (∀ frame args below,
     stack frame = (rev args ++ below)%list →
     pop_args (List.length args) [] frame
     = Some (args, with_stack below frame))
  ∧ (∀ n frame,
       pop_args n [] frame = None ↔ (List.length (stack frame) < n)%nat).
Proof.
  split.
  - intros frame args below Hstack.
    rewrite (pop_args_some (List.length args) [] frame (rev args) below);
      [|apply length_rev|exact Hstack].
    rewrite rev_involutive, app_nil_r. reflexivity.
  - intros n frame. apply pop_args_none.
Qed.

Lemma pop_args_restores_order_witness :
  pop_args 2 []
    {| locals := ∅;
       stack := [jvm.Value_int 2; jvm.Value_int 1; jvm.Value_int 0];
       pc := mkPC Samples.m0 0 |}
  = Some ([jvm.Value_int 1; jvm.Value_int 2],
          with_stack [jvm.Value_int 0]
            {| locals := ∅;
               stack := [jvm.Value_int 2; jvm.Value_int 1; jvm.Value_int 0];
               pc := mkPC Samples.m0 0 |}).
Proof.
  apply (proj1 pop_args_restores_order
           {| locals := ∅;
              stack := [jvm.Value_int 2; jvm.Value_int 1; jvm.Value_int 0];
              pc := mkPC Samples.m0 0 |}
           [jvm.Value_int 1; jvm.Value_int 2] [jvm.Value_int 0]).
  reflexivity.
Defined.

(** ** What an instruction does to the frame it runs in *)

Ltac pop_facts :=
  repeat match goal with
  | H : pop _ = Some _ |- _ => apply pop_inv in H as (? & ? & ?)
  | H : pop_args _ _ _ = Some _ |- _ => apply pop_args_inv in H as (_ & ? & ?)
  end.

Lemma exec_next_top opr state frame s' :
  exec opr state frame = Next s' →
  (∀ t, opr ≠ jvm.Return t) →
  ∃ frame',
    frames s' = frame' :: tail (frames state)
    ∧ method (pc frame') = method (pc frame)
    ∧ ((∀ t i, opr ≠ jvm.Store t i) → locals frame' = locals frame).
Proof.
  destruct opr as [v|t i|t i|t op|cond target|cond target|target|cn|w
                  |static f| |m|m|m|t|mn];
    unfold exec, invoke_result, branch; intros H Hnr;
    try (destruct (Hnr _ eq_refl); fail);
    repeat case_match; pop_facts; simplify_eq;
    (eexists; split; [reflexivity|]); simpl;
    (split; [congruence|]);
    try (intros _; congruence).
  intros Hns. destruct (Hns _ _ eq_refl).
Qed.

Lemma exec_return_last t state frame s' :
  tail (frames state) = [] → exec (jvm.Return t) state frame ≠ Next s'.
Proof.
  intros Htail. unfold exec. rewrite Htail.
  destruct t; repeat case_match; discriminate.
Qed.

(** X8.  A run never leaves its entry method: in every state a run
    reaches, the call stack is one frame whose program counter is in the
    entry method, and the cache of the code store is empty or holds the
    body of the entry method and nothing else, so the suite is asked to
    decode one method, once. *)
Theorem run_stays_in_entry_method suite0 methodid input c :
  reachable suite0 methodid input c →
  ∃ frame,
    frames c.2 = [frame]
    ∧ method (pc frame) = methodid
    ∧ suite c.1 = suite0
    ∧ (methods c.1 = []
       ∨ ∃ body, suite0 methodid = Some body
                 ∧ methods c.1 = [(methodid, body)]).
Proof.
  revert c. apply reachable_ind.
  - eexists. split; [reflexivity|]. simpl. auto.
  - intros [bc state] [bc' s'] (frame & Hframes & Hmethod & Hsuite & Hcache)
      Htrans.
    unfold transition, step in Htrans. simpl in *. rewrite Hframes in Htrans.
    destruct (getitem bc (pc frame)) as [bc1 [opr|e]] eqn:Hget;
      [|discriminate].
    injection Htrans as -> Hexec.
    assert (∀ t, opr ≠ jvm.Return t) as Hnr.
    { intros t ->. apply (exec_return_last t state frame s'); [|exact Hexec].
      rewrite Hframes. reflexivity. }
    destruct (exec_next_top _ _ _ _ Hexec Hnr) as (frame' & Hf' & Hm' & _).
    rewrite Hframes in Hf'. simpl in Hf'.
    exists frame'. split; [exact Hf'|]. split; [congruence|].
    unfold getitem in Hget. rewrite Hmethod in Hget.
    destruct Hcache as [Hempty | (body & Hbody & Hcached)].
    + rewrite Hempty in Hget. simpl in Hget. rewrite Hsuite in Hget.
      destruct (suite0 methodid) as [body|] eqn:Hbody; [|discriminate].
      injection Hget as <- _. simpl. unfold dict_set. eauto.
    + rewrite Hcached in Hget. simpl in Hget.
      destruct (decide (methodid = methodid)); [|contradiction].
      injection Hget as <- _. eauto.
Qed.

Lemma run_stays_in_entry_method_witness :
  ∃ frame,
    frames (Samples.at_offset 1 [jvm.Value_int 3]) = [frame]
    ∧ method (pc frame) = Samples.m0
    ∧ suite (cached_bc (Samples.only Samples.add_3_4) Samples.m0
               Samples.add_3_4) = Samples.only Samples.add_3_4
    ∧ (methods (cached_bc (Samples.only Samples.add_3_4) Samples.m0
                  Samples.add_3_4) = []
       ∨ ∃ body, Samples.only Samples.add_3_4 Samples.m0 = Some body
                 ∧ methods (cached_bc (Samples.only Samples.add_3_4)
                              Samples.m0 Samples.add_3_4)
                   = [(Samples.m0, body)]).
Proof.
  apply (run_stays_in_entry_method (Samples.only Samples.add_3_4)
           Samples.m0 []
           (cached_bc (Samples.only Samples.add_3_4) Samples.m0
              Samples.add_3_4,
            Samples.at_offset 1 [jvm.Value_int 3])).
  apply rtc_once. vm_compute. reflexivity.
Defined.

(** X9.  Only [Store] writes a local variable: a step that returns the
    state after executing any instruction other than [Store] and [Return]
    leaves the local variables of the executing frame as they were, keeps
    its program counter in the same method, and does not touch the frames
    below it. *)
Theorem step_keeps_locals bc state frame opr bc' s' :
  decode bc state = Some (frame, opr, bc') →
  step bc state = (bc', Next s') →
  (∀ t, opr ≠ jvm.Return t) →
  (∀ t i, opr ≠ jvm.Store t i) →
  ∃ frame',
    frames s' = frame' :: tail (frames state)
    ∧ locals frame' = locals frame
    ∧ method (pc frame') = method (pc frame).
Proof.
  intros Hdec Hstep Hnr Hns.
  rewrite (step_decode _ _ _ _ _ Hdec) in Hstep. injection Hstep as Hexec.
  destruct (exec_next_top _ _ _ _ Hexec Hnr) as (frame' & Hf & Hm & Hl).
  exists frame'. auto.
Qed.

Lemma step_keeps_locals_witness :
  ∃ frame',
    frames (Samples.at_offset 1 [jvm.Value_int 3])
    = frame' :: tail (frames (Samples.at_offset 0 []))
    ∧ locals frame' = ∅
    ∧ method (pc frame') = Samples.m0.
Proof.
  apply (step_keeps_locals (initial_bc (Samples.only Samples.add_3_4))
           (Samples.at_offset 0 [])
           {| locals := ∅; stack := []; pc := mkPC Samples.m0 0 |}
           (jvm.Push (jvm.Value_int 3))
           (cached_bc (Samples.only Samples.add_3_4) Samples.m0
              Samples.add_3_4)).
  - reflexivity.
  - vm_compute. reflexivity.
  - discriminate.
  - discriminate.
Defined.

(** X10.  Store then load is a round trip: [Store] pops the top operand
    into slot [i], and a [Load] of slot [i] executed next pushes that same
    value back, whatever the declared types of the two instructions; the
    operand stack is then what it was before the [Store], the slot holds
    the value, and the program counter has advanced by 2. *)
Theorem store_then_load bc state frame bc' bc'' t t' i v below :
  decode bc state = Some (frame, jvm.Store t i, bc') →
  stack frame = v :: below →
  getitem bc' (PC_iadd (pc frame) 1) = (bc'', Returns (jvm.Load t' i)) →
  let stored :=
    mutate state
      {| locals := <[i := v]> (locals frame); stack := below;
         pc := PC_iadd (pc frame) 1 |} in
  step bc state = (bc', Next stored)
  ∧ step bc' stored
    = (bc'',
       Next (mutate state
               {| locals := <[i := v]> (locals frame);
                  stack := v :: below;
                  pc := mkPC (method (pc frame)) (offset (pc frame) + 2) |})).
Proof.
  intros Hdec Hstack Hnext stored. subst stored. split.
  - rewrite (step_decode _ _ _ _ _ Hdec). unfold exec.
    rewrite (pop_with_stack _ _ _ Hstack). reflexivity.
  - unfold step. simpl. rewrite Hnext. unfold exec. simpl.
    rewrite lookup_insert_eq. unfold mutate, advance, push, PC_iadd. simpl.
    replace (offset (pc frame) + 1 + 1) with (offset (pc frame) + 2) by lia.
    reflexivity.
Qed.

Lemma store_then_load_witness :
  step (initial_bc (Samples.only [jvm.Store jvm.Int 1; jvm.Load jvm.Reference 1]))
       (Samples.at_offset 0 [jvm.Value_int 9])
  = (cached_bc (Samples.only [jvm.Store jvm.Int 1; jvm.Load jvm.Reference 1])
       Samples.m0 [jvm.Store jvm.Int 1; jvm.Load jvm.Reference 1],
     Next (mutate (Samples.at_offset 0 [jvm.Value_int 9])
             {| locals := <[1 := jvm.Value_int 9]> ∅; stack := [];
                pc := PC_iadd (mkPC Samples.m0 0) 1 |})).
Proof.
  apply (proj1 (store_then_load
                  (initial_bc (Samples.only
                     [jvm.Store jvm.Int 1; jvm.Load jvm.Reference 1]))
                  (Samples.at_offset 0 [jvm.Value_int 9])
                  {| locals := ∅; stack := [jvm.Value_int 9];
                     pc := mkPC Samples.m0 0 |}
                  (cached_bc (Samples.only
                     [jvm.Store jvm.Int 1; jvm.Load jvm.Reference 1])
                     Samples.m0
                     [jvm.Store jvm.Int 1; jvm.Load jvm.Reference 1])
                  (cached_bc (Samples.only
                     [jvm.Store jvm.Int 1; jvm.Load jvm.Reference 1])
                     Samples.m0
                     [jvm.Store jvm.Int 1; jvm.Load jvm.Reference 1])
                  jvm.Int jvm.Reference 1 (jvm.Value_int 9) []
                  eq_refl eq_refl eq_refl)).
Defined.

(** ** Integer arithmetic *)

(** X11.  [Binary] on integers takes the right operand from the top of the
    operand stack and the left operand from below it, and pushes the exact
    sum, difference or product: an unbounded integer, with no wrap-around
    at 32 bits.  The program counter advances by 1. *)
Theorem step_binary_exact bc state frame op bc' a b below :
  decode bc state = Some (frame, jvm.Binary jvm.Int op, bc') →
  stack frame = jvm.Value_int b :: jvm.Value_int a :: below →
  op = jvm.Add ∨ op = jvm.Sub ∨ op = jvm.Mul →
  step bc state
  = (bc',
     Next (mutate state
             {| locals := locals frame;
                stack :=
                  jvm.Value_int
                    (match op with
                     | jvm.Add => a + b
                     | jvm.Sub => a - b
                     | _ => a * b
                     end) :: below;
                pc := mkPC (method (pc frame)) (offset (pc frame) + 1) |})).
Proof.
  intros Hdec Hstack Hop.
  rewrite (step_decode _ _ _ _ _ Hdec). f_equal.
  unfold exec. rewrite (pop_with_stack _ _ _ Hstack).
  rewrite (pop_with_stack (with_stack _ frame) (jvm.Value_int a) below)
    by reflexivity.
  destruct Hop as [-> | [-> | ->]]; reflexivity.
Qed.

Lemma step_binary_exact_witness :
  (step (initial_bc (Samples.only [jvm.Binary jvm.Int jvm.Mul]))
        (Samples.at_offset 0
           [jvm.Value_int 65536; jvm.Value_int 65536])).2
  = Next (Samples.at_offset 1 [jvm.Value_int 4294967296]).
Proof.
  rewrite (step_binary_exact
             (initial_bc (Samples.only [jvm.Binary jvm.Int jvm.Mul]))
             (Samples.at_offset 0 [jvm.Value_int 65536; jvm.Value_int 65536])
             {| locals := ∅;
                stack := [jvm.Value_int 65536; jvm.Value_int 65536];
                pc := mkPC Samples.m0 0 |}
             jvm.Mul
             (cached_bc (Samples.only [jvm.Binary jvm.Int jvm.Mul])
                Samples.m0 [jvm.Binary jvm.Int jvm.Mul])
             65536 65536 []).
  - reflexivity.
  - reflexivity.
  - reflexivity.
  - right. right. reflexivity.
Defined.

(** X12.  [Binary] on integers never turns a malformed operand stack into
    an outcome: with fewer than two operands the step raises [IndexError],
    and with an operand whose declared type is not Integer it raises the
    [AssertionError] of its [assert], whatever the operator and the
    payloads, a zero divisor included. *)
Theorem step_binary_internal_errors bc state frame op bc' :
  decode bc state = Some (frame, jvm.Binary jvm.Int op, bc') →
  ((List.length (stack frame) < 2)%nat →
   step bc state = (bc', Abort IndexError))
  ∧ (∀ v2 v1 below,
       stack frame = v2 :: v1 :: below →
       jvm.type v1 ≠ jvm.Int ∨ jvm.type v2 ≠ jvm.Int →
       step bc state = (bc', Abort AssertionFailed)).
Proof.
  intros Hdec. rewrite (step_decode _ _ _ _ _ Hdec). split.
  - intros Hlen. f_equal. unfold exec, pop.
    destruct (stack frame) as [|v2 [|v1 below]]; simpl in *;
      try reflexivity; lia.
  - intros v2 v1 below Hstack Hty. f_equal. unfold exec.
    rewrite (pop_with_stack _ _ _ Hstack).
    rewrite (pop_with_stack (with_stack _ frame) v1 below) by reflexivity.
    destruct v1 as [t1 p1], v2 as [t2 p2]. simpl in *.
    destruct t1; try reflexivity; destruct t2; try reflexivity.
    destruct Hty; contradiction.
Qed.

Lemma step_binary_internal_errors_witness :
  (step (initial_bc (Samples.only [jvm.Binary jvm.Int jvm.Div]))
        (Samples.at_offset 0
           [jvm.Value_boolean false; jvm.Value_int 1])).2
  = Abort AssertionFailed.
Proof.
  rewrite (proj2 (step_binary_internal_errors
             (initial_bc (Samples.only [jvm.Binary jvm.Int jvm.Div]))
             (Samples.at_offset 0 [jvm.Value_boolean false; jvm.Value_int 1])
             {| locals := ∅;
                stack := [jvm.Value_boolean false; jvm.Value_int 1];
                pc := mkPC Samples.m0 0 |}
             jvm.Div
             (cached_bc (Samples.only [jvm.Binary jvm.Int jvm.Div])
                Samples.m0 [jvm.Binary jvm.Int jvm.Div])
             eq_refl)
           (jvm.Value_boolean false) (jvm.Value_int 1) []).
  - reflexivity.
  - reflexivity.
  - right. discriminate.
Defined.

(** ** Conditional branches *)

Lemma get_comparable_value_compared v n :
  compared_as v n → get_comparable_value v = Returns (PyInt n).
Proof.
  intros [-> | [(p & -> & ->) | (c & -> & ->)]]; reflexivity.
Qed.

Lemma should_jump_int cond a b :
  should_jump cond (PyInt a) (PyInt b)
  = match int_relation cond with
    | Some rel => Returns (rel a b)
    | None => Raised NotImplementedError
    end.
Proof.
  unfold should_jump, int_relation.
  repeat (destruct (String.eqb cond _); [reflexivity|]). reflexivity.
Qed.

(** X13.  [If] pops the right operand, then the left one, compares them as
    integers (a Boolean as 0 or 1, a Character as its code point) and sets
    the program counter to the target, in the same method, exactly when the
    relation named by the condition holds between left and right;
    otherwise the program counter advances by 1.  A condition that is none
    of eq, ne, lt, le, gt, ge raises [NotImplementedError]. *)
Theorem step_if bc state frame cond target bc' value2 value1 below a b :
  decode bc state = Some (frame, jvm.If cond target, bc') →
  stack frame = value2 :: value1 :: below →
  compared_as value1 a →
  compared_as value2 b →
  step bc state
  = (bc',
     match int_relation cond with
     | Some rel =>
       Next (mutate state
               {| locals := locals frame;
                  stack := below;
                  pc := mkPC (method (pc frame))
                             (if rel a b then target
                              else offset (pc frame) + 1) |})
     | None => Abort NotImplementedError
     end).
Proof.
  intros Hdec Hstack Ha Hb.
  rewrite (step_decode _ _ _ _ _ Hdec). f_equal.
  unfold exec. rewrite (pop_with_stack _ _ _ Hstack).
  rewrite (pop_with_stack (with_stack _ frame) value1 below) by reflexivity.
  rewrite (get_comparable_value_compared _ _ Ha),
    (get_comparable_value_compared _ _ Hb).
  unfold bind. rewrite should_jump_int.
  destruct (int_relation cond) as [rel|]; [|reflexivity].
  destruct (rel a b); reflexivity.
Qed.

Lemma step_if_witness :
  (step (initial_bc (Samples.only [jvm.If "lt" 7]))
        (Samples.at_offset 0 [jvm.Value_int 5; jvm.Value_boolean true])).2
  = Next (Samples.at_offset 7 []).
Proof.
  rewrite (step_if (initial_bc (Samples.only [jvm.If "lt" 7]))
             (Samples.at_offset 0 [jvm.Value_int 5; jvm.Value_boolean true])
             {| locals := ∅;
                stack := [jvm.Value_int 5; jvm.Value_boolean true];
                pc := mkPC Samples.m0 0 |}
             "lt" 7
             (cached_bc (Samples.only [jvm.If "lt" 7]) Samples.m0
                [jvm.If "lt" 7])
             (jvm.Value_int 5) (jvm.Value_boolean true) [] 1 5).
  - reflexivity.
  - reflexivity.
  - reflexivity.
  - right. left. exists true. split; reflexivity.
  - left. reflexivity.
Defined.

(** X14.  [Ifz] pops one operand, compares it as an integer (a Boolean as
    0 or 1, a Character as its code point) with zero, and sets the program
    counter to the target exactly when the relation named by the condition
    holds; otherwise the program counter advances by 1.  In particular the
    test [ne] on the Boolean [false] never branches. *)
Theorem step_ifz bc state frame cond target bc' value below a :
  decode bc state = Some (frame, jvm.Ifz cond target, bc') →
  stack frame = value :: below →
  compared_as value a →
  step bc state
  = (bc',
     match int_relation cond with
     | Some rel =>
       Next (mutate state
               {| locals := locals frame;
                  stack := below;
                  pc := mkPC (method (pc frame))
                             (if rel a 0 then target
                              else offset (pc frame) + 1) |})
     | None => Abort NotImplementedError
     end).
Proof.
  intros Hdec Hstack Ha.
  rewrite (step_decode _ _ _ _ _ Hdec). f_equal.
  unfold exec. rewrite (pop_with_stack _ _ _ Hstack).
  rewrite (get_comparable_value_compared _ _ Ha).
  unfold bind. rewrite should_jump_int.
  destruct (int_relation cond) as [rel|]; [|reflexivity].
  destruct (rel a 0); reflexivity.
Qed.

Lemma step_ifz_witness :
  (step (initial_bc (Samples.only [jvm.Ifz "ne" 9]))
        (Samples.at_offset 0 [jvm.Value_boolean false])).2
  = Next (Samples.at_offset 1 []).
Proof.
  rewrite (step_ifz (initial_bc (Samples.only [jvm.Ifz "ne" 9]))
             (Samples.at_offset 0 [jvm.Value_boolean false])
             {| locals := ∅; stack := [jvm.Value_boolean false];
                pc := mkPC Samples.m0 0 |}
             "ne" 9
             (cached_bc (Samples.only [jvm.Ifz "ne" 9]) Samples.m0
                [jvm.Ifz "ne" 9])
             (jvm.Value_boolean false) [] 0).
  - reflexivity.
  - reflexivity.
  - reflexivity.
  - right. left. exists false. split; reflexivity.
Defined.

(** ** Invocations *)

(** The emulation of a constructor hands back [None], whatever the class. *)
Lemma handle_method_invocation_init m obj_ref args :
  jvm.name (jvm.methodid m) = "<init>" →
  Py.is_none (jvm.value obj_ref) = false →
  handle_method_invocation m (Some obj_ref) args = Returns HNone.
Proof.
  intros Hname Hnn. unfold handle_method_invocation. rewrite Hname.
  destruct (Py.contains "AssertionError" (jvm.classname m)); [reflexivity|].
  simpl. destruct (_ || _); [|reflexivity].
  unfold handle_string_method, receiver_text.
  destruct (jvm.value obj_ref); try discriminate; reflexivity.
Qed.

Lemma pop_args_stack frame args obj_ref below :
  stack frame = (rev args ++ obj_ref :: below)%list →
  pop_args (List.length args) [] frame
  = Some (args, with_stack (obj_ref :: below) frame).
Proof.
  intros Hstack.
  rewrite (pop_args_some (List.length args) [] frame (rev args)
             (obj_ref :: below)); [|apply length_rev|exact Hstack].
  rewrite rev_involutive, app_nil_r. reflexivity.
Qed.

(** X15.  A constructor call is a no-op for every class: [InvokeSpecial]
    of a method named "<init>" on a receiver that is not null pops the
    arguments and the receiver, pushes the receiver back unchanged and
    advances the program counter by 1. *)
Theorem step_constructor bc state frame m bc' args obj_ref below :
  decode bc state = Some (frame, jvm.InvokeSpecial m, bc') →
  jvm.name (jvm.methodid m) = "<init>" →
  List.length args = List.length (jvm.params (jvm.methodid m)) →
  stack frame = (rev args ++ obj_ref :: below)%list →
  jvm.value obj_ref ≠ PyNone →
  step bc state
  = (bc',
     Next (mutate state
             {| locals := locals frame;
                stack := obj_ref :: below;
                pc := mkPC (method (pc frame)) (offset (pc frame) + 1) |})).
Proof.
  intros Hdec Hname Hlen Hstack Hnn.
  assert (Py.is_none (jvm.value obj_ref) = false) as Hnn'
    by (destruct (jvm.value obj_ref); [contradiction|reflexivity..]).
  rewrite (step_decode _ _ _ _ _ Hdec). f_equal.
  unfold exec. rewrite <- Hlen, (pop_args_stack _ _ _ _ Hstack).
  rewrite (pop_with_stack (with_stack _ frame) obj_ref below) by reflexivity.
  rewrite Hnn', Hname. simpl String.eqb. cbv iota.
  rewrite (handle_method_invocation_init _ _ _ Hname Hnn'). reflexivity.
Qed.

Lemma step_constructor_witness :
  (step (initial_bc (Samples.only
           [jvm.InvokeSpecial (constructor "java/lang/Object")]))
        (Samples.at_offset 0 [allocated "java/lang/Object"])).2
  = Next (Samples.at_offset 1 [allocated "java/lang/Object"]).
Proof.
  rewrite (step_constructor
             (initial_bc (Samples.only
                [jvm.InvokeSpecial (constructor "java/lang/Object")]))
             (Samples.at_offset 0 [allocated "java/lang/Object"])
             {| locals := ∅; stack := [allocated "java/lang/Object"];
                pc := mkPC Samples.m0 0 |}
             (constructor "java/lang/Object")
             (cached_bc (Samples.only
                [jvm.InvokeSpecial (constructor "java/lang/Object")])
                Samples.m0
                [jvm.InvokeSpecial (constructor "java/lang/Object")])
             [] (allocated "java/lang/Object") []).
  - reflexivity.
  - reflexivity.
  - reflexivity.
  - reflexivity.
  - reflexivity.
  - discriminate.
Defined.

(** X16.  A null receiver is a "null pointer" before the method is looked
    at: [InvokeVirtual] and [InvokeSpecial] of any method, supported or
    not, on a receiver whose payload is null return the outcome "null
    pointer", with the arguments and the receiver popped. *)
Theorem step_invoke_null_receiver bc state frame opr m bc' args obj_ref below :
  decode bc state = Some (frame, opr, bc') →
  opr = jvm.InvokeVirtual m ∨ opr = jvm.InvokeSpecial m →
  List.length args = List.length (jvm.params (jvm.methodid m)) →
  stack frame = (rev args ++ obj_ref :: below)%list →
  jvm.value obj_ref = PyNone →
  step bc state
  = (bc', Outcome "null pointer" (mutate state (with_stack below frame))).
Proof.
  intros Hdec Hopr Hlen Hstack Hnull.
  rewrite (step_decode _ _ _ _ _ Hdec). f_equal.
  destruct Hopr as [-> | ->]; unfold exec;
    rewrite <- Hlen, (pop_args_stack _ _ _ _ Hstack);
    rewrite (pop_with_stack (with_stack _ frame) obj_ref below)
      by reflexivity;
    rewrite Hnull; reflexivity.
Qed.

Lemma step_invoke_null_receiver_witness :
  (step (initial_bc (Samples.only [jvm.InvokeVirtual Samples.String_length]))
        (Samples.at_offset 0 [mkValue jvm.Reference PyNone])).2
  = Outcome "null pointer"
      (mutate (Samples.at_offset 0 [mkValue jvm.Reference PyNone])
         (with_stack []
            {| locals := ∅; stack := [mkValue jvm.Reference PyNone];
               pc := mkPC Samples.m0 0 |})).
Proof.
  rewrite (step_invoke_null_receiver
             (initial_bc (Samples.only
                [jvm.InvokeVirtual Samples.String_length]))
             (Samples.at_offset 0 [mkValue jvm.Reference PyNone])
             {| locals := ∅; stack := [mkValue jvm.Reference PyNone];
                pc := mkPC Samples.m0 0 |}
             (jvm.InvokeVirtual Samples.String_length)
             Samples.String_length
             (cached_bc (Samples.only
                [jvm.InvokeVirtual Samples.String_length]) Samples.m0
                [jvm.InvokeVirtual Samples.String_length])
             [] (mkValue jvm.Reference PyNone) []).
  - reflexivity.
  - reflexivity.
  - left. reflexivity.
  - reflexivity.
  - reflexivity.
  - reflexivity.
Defined.

(** X17.  A call target outside the emulation is never taken for a normal
    completion: when the class name of the method does not contain
    "String", [InvokeStatic] with enough operands and [InvokeVirtual] on a
    receiver that is not null raise [NotImplementedError]. *)
Theorem step_invoke_unsupported bc state frame m bc' :
  Py.contains "String" (jvm.classname m)
  || Py.endswith (jvm.classname m) "String" = false →
  (decode bc state = Some (frame, jvm.InvokeStatic m, bc') →
   (List.length (jvm.params (jvm.methodid m))
    <= List.length (stack frame))%nat →
   step bc state = (bc', Abort NotImplementedError))
  ∧ (∀ args obj_ref below,
       decode bc state = Some (frame, jvm.InvokeVirtual m, bc') →
       List.length args = List.length (jvm.params (jvm.methodid m)) →
       stack frame = (rev args ++ obj_ref :: below)%list →
       jvm.value obj_ref ≠ PyNone →
       step bc state = (bc', Abort NotImplementedError)).
Proof.
  intros Hclass.
  assert (∀ obj_ref args,
            handle_method_invocation m obj_ref args = Returns HNone) as Hhmi.
  { intros obj_ref args. unfold handle_method_invocation.
    rewrite Hclass. destruct (_ && _); reflexivity. }
  split.
  - intros Hdec Hlen. rewrite (step_decode _ _ _ _ _ Hdec). f_equal.
    unfold exec.
    destruct (pop_args _ [] frame) as [[args frame']|] eqn:Hpop.
    + rewrite Hhmi. reflexivity.
    + apply pop_args_none in Hpop. lia.
  - intros args obj_ref below Hdec Hlen Hstack Hnn.
    assert (Py.is_none (jvm.value obj_ref) = false) as Hnn'
      by (destruct (jvm.value obj_ref); [contradiction|reflexivity..]).
    rewrite (step_decode _ _ _ _ _ Hdec). f_equal.
    unfold exec. rewrite <- Hlen, (pop_args_stack _ _ _ _ Hstack).
    rewrite (pop_with_stack (with_stack _ frame) obj_ref below)
      by reflexivity.
    rewrite Hnn', Hhmi. reflexivity.
Qed.

Lemma step_invoke_unsupported_witness :
  (step (initial_bc (Samples.only [jvm.InvokeStatic Samples.m0]))
        (Samples.at_offset 0 [])).2
  = Abort NotImplementedError.
Proof.
  rewrite (proj1 (step_invoke_unsupported
             (initial_bc (Samples.only [jvm.InvokeStatic Samples.m0]))
             (Samples.at_offset 0 [])
             {| locals := ∅; stack := []; pc := mkPC Samples.m0 0 |}
             Samples.m0
             (cached_bc (Samples.only [jvm.InvokeStatic Samples.m0])
                Samples.m0 [jvm.InvokeStatic Samples.m0])
             eq_refl) eq_refl).
  - reflexivity.
  - simpl. lia.
Defined.

(** X18.  A static invocation never reaches the text emulation with a
    receiver: [InvokeStatic] of any method of a class whose name contains
    "String" (and is not an assertion-error constructor) returns the
    outcome "null pointer" as soon as the operand stack holds the
    arguments. *)
Theorem step_invoke_static_string bc state frame m bc' :
  decode bc state = Some (frame, jvm.InvokeStatic m, bc') →
  Py.contains "String" (jvm.classname m) = true →
  Py.contains "AssertionError" (jvm.classname m) = false →
  (List.length (jvm.params (jvm.methodid m))
   <= List.length (stack frame))%nat →
  ∃ s', step bc state = (bc', Outcome "null pointer" s').
Proof.
  intros Hdec Hstring Hassert Hlen.
  rewrite (step_decode _ _ _ _ _ Hdec). unfold exec.
  destruct (pop_args _ [] frame) as [[args frame']|] eqn:Hpop.
  - unfold handle_method_invocation. rewrite Hstring, Hassert. simpl.
    eauto.
  - apply pop_args_none in Hpop. lia.
Qed.

Lemma step_invoke_static_string_witness :
  ∃ s',
    step (initial_bc (Samples.only [jvm.InvokeStatic Samples.String_length]))
         (Samples.at_offset 0 [])
    = (cached_bc (Samples.only [jvm.InvokeStatic Samples.String_length])
         Samples.m0 [jvm.InvokeStatic Samples.String_length],
       Outcome "null pointer" s').
Proof.
  apply (step_invoke_static_string
           (initial_bc (Samples.only
              [jvm.InvokeStatic Samples.String_length]))
           (Samples.at_offset 0 [])
           {| locals := ∅; stack := []; pc := mkPC Samples.m0 0 |}
           Samples.String_length).
  - reflexivity.
  - reflexivity.
  - reflexivity.
  - simpl. lia.
Defined.

(** ** Allocating and throwing *)

Lemma list_getitem_nth {A} (l : list A) (k : nat) x :
  nth_error l k = Some x → Py.list_getitem l (Z.of_nat k) = Returns x.
Proof.
  intros Hnth. unfold Py.list_getitem, Py.index_pos.
  assert (k < List.length l)%nat as Hlt
    by (apply nth_error_Some; congruence).
  destruct (Z.leb_spec 0 (Z.of_nat k)); [|lia].
  destruct (Z.ltb_spec (Z.of_nat k) (Z.of_nat (List.length l))); [|lia].
  simpl. rewrite Nat2Z.id, Hnth. reflexivity.
Qed.

(** Fetching the [k]-th instruction of the entry method, before and after
    its body is cached. *)
Lemma step_in_body suite0 m body bc state frame rest (k : nat) opr :
  suite0 m = Some body →
  bc = initial_bc suite0 ∨ bc = cached_bc suite0 m body →
  frames state = frame :: rest →
  pc frame = mkPC m (Z.of_nat k) →
  nth_error body k = Some opr →
  step bc state = (cached_bc suite0 m body, exec opr state frame).
Proof.
  intros Hbody Hbc Hframes Hpc Hnth. unfold step. rewrite Hframes, Hpc.
  unfold getitem.
  destruct Hbc as [-> | ->]; simpl.
  - rewrite Hbody, (list_getitem_nth _ _ _ Hnth). reflexivity.
  - destruct (decide (m = m)); [|contradiction].
    rewrite (list_getitem_nth _ _ _ Hnth). reflexivity.
Qed.

Ltac fetch Hbody k :=
  erewrite (step_in_body _ _ _ _ _ _ _ k _ Hbody);
  [ | first [left; reflexivity | right; reflexivity]
    | reflexivity | reflexivity | reflexivity ].

Lemma exec_new cn state frame :
  exec (jvm.New cn) state frame
  = Next (mutate state (advance (push (allocated cn) frame))).
Proof.
  unfold exec, allocated.
  destruct (Py.contains "AssertionError" cn); reflexivity.
Qed.

Lemma exec_throw_allocated cn state frame items :
  stack frame = allocated cn :: items →
  exec jvm.Throw state frame
  = Outcome "assertion error" (mutate state (with_stack items frame)).
Proof.
  intros Hstack. unfold exec. rewrite (pop_with_stack _ _ _ Hstack).
  simpl. destruct (_ || _); reflexivity.
Qed.

Lemma step_constructor_effect cn state frame items :
  stack frame = allocated cn :: items →
  exec (jvm.InvokeSpecial (constructor cn)) state frame
  = Next (mutate state (advance (push (allocated cn) (with_stack items frame)))).
Proof.
  intros Hstack. unfold exec.
  cbn [pop_args List.length jvm.params jvm.methodid jvm.name constructor].
  rewrite (pop_with_stack _ _ _ Hstack).
  rewrite (handle_method_invocation_init (constructor cn) (allocated cn) [])
    by reflexivity.
  reflexivity.
Qed.

(** X19.  Allocating an object of any class, constructing it and throwing
    it is reported as "assertion error": for every class name [cn], input
    and continuation, a method that starts with [New cn], [Dup 1],
    [InvokeSpecial cn.<init>()], [Throw] makes the driver print
    "assertion error" at its fourth step. *)
Theorem main_new_throw suite0 methodid input cn rest :
  suite0 methodid
  = Some (jvm.New cn :: jvm.Dup 1 :: jvm.InvokeSpecial (constructor cn)
          :: jvm.Throw :: rest) →
  main suite0 methodid input = Printed "assertion error".
Proof.
  intros Hbody. unfold main.
  rewrite (run_unfold 999). fetch Hbody 0%nat.
  rewrite exec_new.
  rewrite (run_unfold 998). fetch Hbody 1%nat.
  cbn [exec Z.eqb Pos.eqb stack advance push mutate frames tail].
  rewrite (run_unfold 997). fetch Hbody 2%nat.
  rewrite (step_constructor_effect cn _ _ [allocated cn]) by reflexivity.
  rewrite (run_unfold 996). fetch Hbody 3%nat.
  rewrite (exec_throw_allocated cn _ _ [allocated cn]) by reflexivity.
  reflexivity.
Qed.

Lemma main_new_throw_witness :
  main (Samples.only
          [jvm.New "java/lang/RuntimeException"; jvm.Dup 1;
           jvm.InvokeSpecial (constructor "java/lang/RuntimeException");
           jvm.Throw])
       Samples.m0 []
  = Printed "assertion error".
Proof.
  apply (main_new_throw _ Samples.m0 [] "java/lang/RuntimeException" []).
  reflexivity.
Defined.

(** ** The text operations of the emulation *)

Lemma get_in_range s : ∀ n,
  (n < String.length s)%nat → ∃ c, String.get n s = Some c.
Proof.
  induction s as [|c s IH]; intros n Hn; simpl in Hn; [lia|].
  destruct n as [|n]; simpl; [eauto|]. apply IH. lia.
Qed.

Lemma charAt_eval s t i rt :
  handle_string_method "charAt" (Some (mkValue t (PyStr s)))
    [jvm.Value_int i] rt
  = if (i <? 0) || (i >=? Py.len s)
    then Returns (HOutcome "out of bounds")
    else do c <- Py.str_getitem s i; Returns (HValue (jvm.Value_char c)).
Proof.
  unfold handle_string_method, receiver_text, string_method. simpl.
  unfold Py.or_, Py.lt, Py.ge, Py.order, bind. simpl.
  destruct (i <? 0); simpl; [reflexivity|].
  destruct (i >=? Py.len s); reflexivity.
Qed.

(** X20.  The emulation of [charAt] on a text receiver [s] and an integer
    index [i] yields the outcome "out of bounds" if and only if [i < 0] or
    [i >= length(s)]; otherwise it returns the Character value holding the
    character of [s] at position [i]. *)
Theorem charAt_bounds s t i rt :
  let result :=
    handle_string_method "charAt" (Some (mkValue t (PyStr s)))
      [jvm.Value_int i] rt in
  (result = Returns (HOutcome "out of bounds") ↔ (i < 0 ∨ i >= Py.len s))
  ∧ (0 <= i < Py.len s →
     ∃ c, String.get (Z.to_nat i) s = Some c
          ∧ result = Returns (HValue (jvm.Value_char (String c "")))).
Proof.
  intros result. subst result. rewrite charAt_eval.
  destruct (Z.ltb_spec i 0) as [Hi|Hi]; simpl.
  { split; [split; [lia|reflexivity]|lia]. }
  destruct (Z.geb_spec i (Py.len s)) as [Hl|Hl]; simpl.
  { split; [split; [lia|reflexivity]|lia]. }
  destruct (get_in_range s (Z.to_nat i)) as [c Hc];
    [unfold Py.len in Hl; lia|].
  assert (Py.str_getitem s i = Returns (String c "")) as Hget.
  { unfold Py.str_getitem, Py.index_pos.
    destruct (Z.leb_spec 0 i); [|lia].
    destruct (Z.ltb_spec i (Py.len s)); [|lia]. simpl. rewrite Hc.
    reflexivity. }
  rewrite Hget. simpl. split.
  - split; [discriminate|lia].
  - intros _. exists c. split; [exact Hc|reflexivity].
Qed.

Lemma charAt_bounds_witness :
  ∃ c, String.get (Z.to_nat 1) "abc" = Some c
       ∧ handle_string_method "charAt"
           (Some (mkValue jvm.Reference (PyStr "abc"))) [jvm.Value_int 1] None
         = Returns (HValue (jvm.Value_char (String c ""))).
Proof.
  apply (proj2 (charAt_bounds "abc" jvm.Reference 1 None)).
  vm_compute. split; [discriminate|reflexivity].
Defined.

Lemma substring_one_arg_eval s t b rt :
  handle_string_method "substring" (Some (mkValue t (PyStr s)))
    [jvm.Value_int b] rt
  = if (b <? 0) || (b >? Py.len s)
    then Returns (HOutcome "out of bounds")
    else Returns (HValue (mkValue jvm.Reference
                            (PyStr (Py.slice_from s b)))).
Proof.
  unfold handle_string_method, receiver_text, string_method. simpl.
  unfold Py.or_, Py.lt, Py.gt, Py.order, bind. simpl.
  destruct (b <? 0); simpl; [reflexivity|].
  destruct (b >? Py.len s); reflexivity.
Qed.

(** X21.  The one-argument substring emulation on a text receiver [s] and
    an integer [b] yields the outcome "out of bounds" if and only if
    [b < 0] or [b > length(s)]; otherwise it returns a text Reference
    holding the characters of [s] from position [b] to the end, the empty
    text when [b = length(s)]. *)
Theorem substring_one_arg s t b rt :
  let result :=
    handle_string_method "substring" (Some (mkValue t (PyStr s)))
      [jvm.Value_int b] rt in
  (result = Returns (HOutcome "out of bounds") ↔ (b < 0 ∨ b > Py.len s))
  ∧ (0 <= b <= Py.len s →
     result
     = Returns (HValue (mkValue jvm.Reference
                          (PyStr (expected_slice s b (Py.len s)))))
     ∧ Py.len (expected_slice s b (Py.len s)) = Py.len s - b).
Proof.
  intros result. subst result. rewrite substring_one_arg_eval.
  destruct (Z.ltb_spec b 0) as [Hb|Hb]; simpl.
  { split; [split; [lia|reflexivity]|lia]. }
  destruct (Z.gtb_spec b (Py.len s)) as [Hl|Hl]; simpl.
  { split; [split; [lia|reflexivity]|lia]. }
  split.
  - split; [discriminate|lia].
  - intros _. unfold Py.slice_from. rewrite slice_in_bounds by lia.
    split; [reflexivity|]. apply expected_slice_length; lia.
Qed.

Lemma substring_one_arg_witness :
  handle_string_method "substring"
    (Some (mkValue jvm.Reference (PyStr "hello"))) [jvm.Value_int 5] None
  = Returns (HValue (mkValue jvm.Reference
                       (PyStr (expected_slice "hello" 5 (Py.len "hello")))))
  ∧ Py.len (expected_slice "hello" 5 (Py.len "hello")) = Py.len "hello" - 5.
Proof.
  apply (proj2 (substring_one_arg "hello" jvm.Reference 5 None)).
  vm_compute. split; discriminate.
Defined.

(** X22.  The emulation of [equals] on a text receiver answers false for
    a null argument, and for any other argument answers whether the
    receiver is the printed form of the argument's payload: for a text
    argument, whether the two texts are equal. *)
Theorem equals_decides s t other rt :
  handle_string_method "equals" (Some (mkValue t (PyStr s))) [other] rt
  = Returns (HValue (jvm.Value_boolean
      (if Py.is_none (jvm.value other) then false
       else bool_decide (s = Py.str (jvm.value other))))).
Proof.
  unfold handle_string_method, receiver_text, string_method. simpl.
  destruct (Py.is_none (jvm.value other)); [reflexivity|].
  repeat f_equal.
  destruct (String.eqb_spec s (Py.str (jvm.value other))) as [E|E].
  - rewrite bool_decide_eq_true_2; auto.
  - rewrite bool_decide_eq_false_2; auto.
Qed.

Lemma index_from_unfold k pat s :
  Py.index_from k pat s
  = if String.prefix pat s then Some k
    else match s with
         | EmptyString => None
         | String _ s' => Py.index_from (S k) pat s'
         end.
Proof. destruct s; reflexivity. Qed.

Lemma index_from_some pat s : ∀ k r,
  Py.index_from k pat s = Some r →
  ∃ d, r = (k + d)%nat
       ∧ occurs_at pat s d
       ∧ ∀ j, (j < d)%nat → ¬ occurs_at pat s j.
Proof.
  induction s as [|c s IH]; intros k r; rewrite index_from_unfold.
  - destruct (String.prefix pat "") eqn:Hp; [|discriminate].
    intros [= <-]. exists 0%nat. split; [lia|]. split.
    + split; [simpl; lia|exact Hp].
    + intros j Hj. lia.
  - destruct (String.prefix pat (String c s)) eqn:Hp.
    + intros [= <-]. exists 0%nat. split; [lia|]. split.
      * split; [simpl; lia|exact Hp].
      * intros j Hj. lia.
    + intros Hrest. destruct (IH _ _ Hrest) as (d & -> & [Hd Ho] & Hmin).
      exists (S d). split; [lia|]. split.
      * split; [simpl; lia|exact Ho].
      * intros [|j] Hj [Hjl Hjo].
        -- cbn [string_drop] in Hjo. congruence.
        -- apply (Hmin j); [lia|]. split; [simpl in Hjl; lia|exact Hjo].
Qed.

Lemma index_from_none pat s : ∀ k,
  Py.index_from k pat s = None → ∀ j, ¬ occurs_at pat s j.
Proof.
  induction s as [|c s IH]; intros k; rewrite index_from_unfold.
  - destruct (String.prefix pat "") eqn:Hp; [discriminate|].
    intros _ j [Hj Ho]. destruct j; cbn [string_drop] in Ho; congruence.
  - destruct (String.prefix pat (String c s)) eqn:Hp; [discriminate|].
    intros Hrest [|j] [Hj Ho].
    + cbn [string_drop] in Ho. congruence.
    + apply (IH _ Hrest j). split; [simpl in Hj; lia|exact Ho].
Qed.

(** X23.  The emulation of [indexOf] on a text receiver [s] and a text
    argument [pat] returns an integer [k] that is either the first
    position at which [pat] occurs in [s], or -1 when [pat] occurs
    nowhere in [s]; a null argument yields the outcome "null pointer". *)
Theorem indexOf_first_occurrence s t pat t' rt :
  handle_string_method "indexOf" (Some (mkValue t (PyStr s)))
    [mkValue t' PyNone] rt
  = Returns (HOutcome "null pointer")
  ∧ ∃ k,
      handle_string_method "indexOf" (Some (mkValue t (PyStr s)))
        [mkValue t' (PyStr pat)] rt
      = Returns (HValue (jvm.Value_int k))
      ∧ ((k = -1 ∧ ∀ j, ¬ occurs_at pat s j)
         ∨ (0 <= k
            ∧ occurs_at pat s (Z.to_nat k)
            ∧ ∀ j, (j < Z.to_nat k)%nat → ¬ occurs_at pat s j)).
Proof.
  split; [reflexivity|].
  unfold handle_string_method, receiver_text, string_method. simpl.
  unfold Py.index. destruct (Py.index_from 0 pat s) as [r|] eqn:Hidx.
  - exists (Z.of_nat r). split; [reflexivity|]. right.
    destruct (index_from_some _ _ _ _ Hidx) as (d & -> & Ho & Hmin).
    simpl. rewrite Nat2Z.id. split; [lia|]. split; assumption.
  - exists (-1). split; [reflexivity|]. left. split; [reflexivity|].
    exact (index_from_none _ _ _ Hidx).
Qed.

Lemma indexOf_first_occurrence_witness :
  handle_string_method "indexOf"
    (Some (mkValue jvm.Reference (PyStr "hello")))
    [mkValue jvm.Reference PyNone] None
  = Returns (HOutcome "null pointer").
Proof.
  apply (proj1 (indexOf_first_occurrence "hello" jvm.Reference "ll"
                  jvm.Reference None)).
Defined.

(** ** A whole run through the emulation *)

Lemma initial_frame_first_local methodid v others :
  locals (initial_frame methodid (v :: others)) !! 0 = Some v.
Proof.
  unfold initial_frame. simpl locals. rewrite seed_locals_lookup.
  destruct (Z.leb_spec 0 0); [|lia].
  destruct (Z.ltb_spec 0 (0 + Z.of_nat (List.length (v :: others))));
    [reflexivity|simpl in *; lia].
Qed.

Lemma exec_invoke_charAt state frame i receiver below :
  stack frame = jvm.Value_int i :: receiver :: below →
  Py.is_none (jvm.value receiver) = false →
  exec (jvm.InvokeVirtual String_charAt) state frame
  = invoke_result state (with_stack below frame)
      (handle_string_method "charAt" (Some receiver) [jvm.Value_int i]
         (Some jvm.Char)).
Proof.
  intros Hstack Hnn. unfold exec.
  cbn [pop_args List.length jvm.params jvm.methodid String_charAt].
  rewrite (pop_with_stack _ _ _ Hstack).
  rewrite (pop_with_stack (with_stack _ frame) receiver below)
    by reflexivity.
  rewrite Hnn. reflexivity.
Qed.

(** X24.  A run through load, push, invocation and return: a method that
    loads its first argument, pushes the integer [i], invokes
    [String.charAt] and returns the result prints "out of bounds" when the
    argument is a text [s] with [i < 0] or [i >= length(s)], and "ok"
    otherwise, whatever further arguments and instructions follow. *)
Theorem main_charAt suite0 methodid t s others i rest :
  suite0 methodid
  = Some (jvm.Load jvm.Reference 0 :: jvm.Push (jvm.Value_int i)
          :: jvm.InvokeVirtual String_charAt
          :: jvm.Return (Some jvm.Char) :: rest) →
  main suite0 methodid (mkValue t (PyStr s) :: others)
  = Printed (if (i <? 0) || (i >=? Py.len s) then "out of bounds"
             else "ok").
Proof.
  intros Hbody. unfold main.
  rewrite (run_unfold 999). fetch Hbody 0%nat.
  unfold exec at 1. rewrite initial_frame_first_local.
  rewrite (run_unfold 998). fetch Hbody 1%nat.
  cbn [exec].
  rewrite (run_unfold 997). fetch Hbody 2%nat.
  rewrite (exec_invoke_charAt _ _ i (mkValue t (PyStr s)) [])
    by reflexivity.
  rewrite charAt_eval.
  destruct ((i <? 0) || (i >=? Py.len s)) eqn:Hoob; [reflexivity|].
  apply orb_false_elim in Hoob as [Hlo Hhi].
  destruct (get_in_range s (Z.to_nat i)) as [c Hc];
    [unfold Py.len in Hhi; lia|].
  assert (Py.str_getitem s i = Returns (String c "")) as ->.
  { unfold Py.str_getitem, Py.index_pos.
    destruct (Z.leb_spec 0 i); [|lia].
    destruct (Z.ltb_spec i (Py.len s)); [|lia]. simpl. rewrite Hc.
    reflexivity. }
  cbn [bind invoke_result].
  rewrite (run_unfold 996). fetch Hbody 3%nat.
  reflexivity.
Qed.

Lemma main_charAt_witness :
  main (Samples.only
          [jvm.Load jvm.Reference 0; jvm.Push (jvm.Value_int 3);
           jvm.InvokeVirtual String_charAt; jvm.Return (Some jvm.Char)])
       Samples.m0 [mkValue jvm.Reference (PyStr "abc")]
  = Printed (if (3 <? 0) || (3 >=? Py.len "abc") then "out of bounds"
             else "ok").
Proof.
  apply (main_charAt _ Samples.m0 jvm.Reference "abc" [] 3 []).
  reflexivity.
Defined.
